(** * bigFileAmountCompare: parsing, aggregation and report rendering

    A shallow embedding of [src/bigFileAmountCompare.py].

    Conventions of the embedding.
    - A Python [str] is a Rocq [string]; a character stands for one code
      point below 256.
    - Python's unbounded non-negative counters are [nat].
    - The [defaultdict] returned by [analyze_rsync_output] is an association
      list in insertion order (a Python dict iterates in insertion order);
      the map it denotes is [list_to_map] of it.
    - Exceptions are values of the error monad [result].
    - [pathlib.Path] is [PurePosixPath]: the tool drives rsync, sshpass and
      which, so the host is a POSIX system. *)

From Stdlib Require Import Ascii.
From stdpp Require Import base option list strings sorting pretty gmap.

(** ** Python string primitives *)

Module Str.

Definition LF : ascii := "010"%char.
Definition CR : ascii := "013"%char.
Definition SEP : ascii := "/"%char.

(** [str.isspace] on one code point below 256: the characters removed by
    [str.strip()] without argument. *)
Definition isspace (c : ascii) : bool :=
  match c with
  | "009" | "010" | "011" | "012" | "013"
  | "028" | "029" | "030" | "031" | " "
  | "133" | "160" => true
  | _ => false
  end%char.

Definition is_char (x c : ascii) : bool := bool_decide (c = x).

Definition is_empty (s : string) : bool :=
  match s with "" => true | _ => false end.

(** [s.lstrip(chars)], the set of characters given as a predicate. *)
Fixpoint lstrip (p : ascii → bool) (s : string) : string :=
  match s with
  | "" => ""
  | String c s' => if p c then lstrip p s' else s
  end.

(** [s.rstrip(chars)]. *)
Fixpoint rstrip (p : ascii → bool) (s : string) : string :=
  match s with
  | "" => ""
  | String c s' =>
      let r := rstrip p s' in
      if p c && is_empty r then "" else String c r
  end.

(** [s.strip()] *)
Definition strip (s : string) : string := rstrip isspace (lstrip isspace s).

(** [s.startswith(p)] *)
Fixpoint startswith (p s : string) : bool :=
  match p, s with
  | "", _ => true
  | String a p', String b s' => bool_decide (a = b) && startswith p' s'
  | String _ _, "" => false
  end.

(** [s.endswith(p)] *)
Definition endswith (p s : string) : bool :=
  startswith (String.rev p) (String.rev s).

(** [sub in s] *)
Fixpoint contains (sub s : string) : bool :=
  startswith sub s ||
  match s with
  | "" => false
  | String _ s' => contains sub s'
  end.

(** [s.split(sep)] for a one-character separator: never the empty list. *)
Fixpoint split (sep : ascii) (s : string) : list string :=
  match s with
  | "" => [""]
  | String c s' =>
      if bool_decide (c = sep) then "" :: split sep s'
      else match split sep s' with
           | [] => [String c ""]
           | w :: ws => String c w :: ws
           end
  end.

(** [sep.join(l)] *)
Fixpoint join (sep : string) (l : list string) : string :=
  match l with
  | [] => ""
  | [x] => x
  | x :: l' => x +:+ sep +:+ join sep l'
  end.

(** [s * n] *)
Fixpoint mul (s : string) (n : nat) : string :=
  match n with
  | O => ""
  | S n' => s +:+ mul s n'
  end.

(** [s[:n]] *)
Fixpoint take (n : nat) (s : string) : string :=
  match n, s with
  | S n', String c s' => String c (take n' s')
  | _, _ => ""
  end.

(** [s[n:]] *)
Fixpoint drop (n : nat) (s : string) : string :=
  match n, s with
  | S n', String _ s' => drop n' s'
  | _, _ => s
  end.

(** Iterating a text file opened with the default [newline=None]: the
    text is cut after each line end, and the line ends ["\n"], ["\r"] and
    ["\r\n"] all arrive as ["\n"]. Each line keeps its line end; a last
    line without one is yielded as it is. *)
Fixpoint readlines (text : string) : list string :=
  match text with
  | "" => []
  | String c rest =>
      if bool_decide (c = LF) then String LF "" :: readlines rest
      else if bool_decide (c = CR) then
        match rest with
        | String c' rest' =>
            if bool_decide (c' = LF) then String LF "" :: readlines rest'
            else String LF "" :: readlines rest
        | "" => [String LF ""]
        end
      else match readlines rest with
           | [] => [String c ""]
           | l :: ls => String c l :: ls
           end
  end.

(** The text of a file holding the given lines, each ended by a newline. *)
Definition unlines (ls : list string) : string :=
  foldr (λ l acc, l +:+ String LF acc) "" ls.

End Str.

(** ** Exceptions *)

Inductive exn := IndexError.

Inductive result (A : Type) :=
| Ok (a : A)
| Raise (e : exn).
Arguments Ok {A} a.
Arguments Raise {A} e.

#[global] Instance result_ret : MRet result := λ A a, Ok a.
#[global] Instance result_bind : MBind result := λ A B k m,
  match m with
  | Ok a => k a
  | Raise e => Raise e
  end.

(** [t[i]] on a tuple or list: IndexError out of range. *)
Definition index {A} (t : list A) (i : nat) : result A :=
  match t !! i with
  | Some x => Ok x
  | None => Raise IndexError
  end.

(** ** [pathlib.PurePosixPath] *)

Module PosixPath.

(** [posixpath.splitroot] without the drive, which is always empty: the
    root and the rest. Exactly two leading separators are kept as root. *)
Definition splitroot (p : string) : string * string :=
  if negb (bool_decide (Str.take 1 p = "/")) then ("", p)
  else if negb (bool_decide (Str.take 1 (Str.drop 1 p) = "/"))
          || bool_decide (Str.take 1 (Str.drop 2 p) = "/")
       then ("/", Str.drop 1 p)
       else (Str.take 2 p, Str.drop 2 p).

Definition keep_part (x : string) : bool :=
  negb (Str.is_empty x) && negb (bool_decide (x = ".")).

(** [_parse_path]: root and the components that are neither empty nor
    ["."]. *)
Definition parse_path (path : string) : string * list string :=
  if Str.is_empty path then ("", [])
  else
    let '(root, rel) := splitroot path in
    (root, List.filter keep_part (Str.split Str.SEP rel)).

(** [Path(path).parts] *)
Definition parts (path : string) : list string :=
  let '(root, tail) := parse_path path in
  if negb (Str.is_empty root) then root :: tail else tail.

End PosixPath.

(** ** The aggregation result *)

Record DirectoryStat := mkStat {
  files : nat;
  dirs : nat;
  items : list string
}.

#[global] Instance DirectoryStat_eq_dec : EqDecision DirectoryStat.
Proof. solve_decision. Defined.

(** The [defaultdict] factory: [{"files": 0, "dirs": 0, "items": []}]. *)
Definition default_stat : DirectoryStat := mkStat 0 0 [].

Definition incr_files (st : DirectoryStat) : DirectoryStat :=
  mkStat (S (files st)) (dirs st) (items st).
Definition incr_dirs (st : DirectoryStat) : DirectoryStat :=
  mkStat (files st) (S (dirs st)) (items st).
Definition append_item (x : string) (st : DirectoryStat) : DirectoryStat :=
  mkStat (files st) (dirs st) (items st ++ [x]).

(** A dict in insertion order. *)
Abbreviation dict := (list (string * DirectoryStat)).

(** [d.get(k)] *)
Fixpoint dict_get (k : string) (d : dict) : option DirectoryStat :=
  match d with
  | [] => None
  | (k', v) :: d' => if decide (k' = k) then Some v else dict_get k d'
  end.

(** [d[k]] on the defaultdict: a missing key is first bound to the factory
    value, at the end of the insertion order. *)
Definition dd_getitem (k : string) (d : dict) : DirectoryStat * dict :=
  match dict_get k d with
  | Some v => (v, d)
  | None => (default_stat, d ++ [(k, default_stat)])
  end.

(** [d[k]] followed by an update in place of the stat object it returns. *)
Fixpoint dd_update (f : DirectoryStat → DirectoryStat) (k : string) (d : dict)
    : dict :=
  match d with
  | [] => [(k, f default_stat)]
  | (k', v) :: d' =>
      if decide (k' = k) then (k', f v) :: d' else (k', v) :: dd_update f k d'
  end.

(** ** [analyze_rsync_output] *)

(** The test of the [continue] at the head of the loop, on the stripped
    line. *)
Definition is_noise (line : string) : bool :=
  Str.is_empty line
  || Str.startswith "rsync:" line
  || Str.startswith "sent" line
  || Str.startswith "total size" line
  || Str.startswith "rsync error" line
  || Str.contains "bytes/sec" line
  || Str.startswith "receiving" line
  || Str.startswith "sending" line.

(** The grouping key of a tuple of path parts; [None] is the [continue] of
    the last branch. *)
Definition parent_key (parts : list string) : result (option string) :=
  if bool_decide (2 ≤ length parts) then
    p0 ← index parts 0;
    p1 ← index parts 1;
    mret (Some (p0 +:+ "/" +:+ p1))
  else if bool_decide (length parts = 1) then
    p0 ← index parts 0;
    mret (Some p0)
  else mret None.

(** The statistics update of one accepted line. *)
Definition record_line (is_dir : bool) (key line : string) (d : dict) : dict :=
  let d1 := if is_dir then dd_update incr_dirs key d
            else dd_update incr_files key d in
  let '(st, d2) := dd_getitem key d1 in
  if bool_decide (length (items st) < 5) then dd_update (append_item line) key d2
  else d2.

(** One turn of the loop on the line [raw] as read from the file. *)
Definition process_line (d : dict) (raw : string) : result dict :=
  let line := Str.strip raw in
  if is_noise line then mret d
  else
    let is_dir := Str.endswith "/" line in
    let path := Str.rstrip (Str.is_char Str.SEP) line in
    let parts := PosixPath.parts path in
    key ← parent_key parts;
    match key with
    | None => mret d
    | Some k => mret (record_line is_dir k line d)
    end.

(** The loop over the lines. *)
Fixpoint analyze_lines (d : dict) (ls : list string) : result dict :=
  match ls with
  | [] => mret d
  | l :: ls' => d' ← process_line d l; analyze_lines d' ls'
  end.

(** [analyze_rsync_output], on the text of the file. *)
Definition analyze_rsync_output (text : string) : result dict :=
  analyze_lines [] (Str.readlines text).

(** ** [format_report] *)

Definition rule : string := Str.mul "=" 80.

(** [sorted(dir_stats.keys())] *)
Definition sorted_keys (d : dict) : list string := merge_sort String.le (d.*1).

(** The lines of the section of one key. *)
Definition section_lines (d : dict) (parent_dir : string) : list string :=
  let stats := default default_stat (dict_get parent_dir d) in
  let total_items := files stats + dirs stats in
  [ "Directory: " +:+ parent_dir +:+ "/";
    "  - Files: " +:+ pretty (files stats);
    "  - Subdirectories: " +:+ pretty (dirs stats);
    "  - Total items: " +:+ pretty total_items ]
  ++ (if bool_decide (items stats ≠ [])
      then "  - Sample items:" :: ((λ item, "      " +:+ item) <$> take 3 (items stats))
      else [])
  ++ [""].

Definition total_files (d : dict) : nat := sum_list ((files ∘ snd) <$> d).
Definition total_dirs (d : dict) : nat := sum_list ((dirs ∘ snd) <$> d).

Definition header_lines (source destination : string) : list string :=
  [ rule;
    "FILE LOCATION COMPARISON REPORT";
    rule;
    "Source:      " +:+ source;
    "Destination: " +:+ destination;
    "";
    "UNIQUE CONTENT IN SOURCE (Not in destination)";
    rule;
    "" ].

Definition summary_lines (d : dict) : list string :=
  [ rule;
    "SUMMARY";
    rule;
    "Total unique parent directories: " +:+ pretty (length d);
    "Total unique files: " +:+ pretty (total_files d);
    "Total unique subdirectories: " +:+ pretty (total_dirs d);
    "Grand total: " +:+ pretty (total_files d + total_dirs d) +:+ " items";
    "" ].

Definition report_lines (d : dict) (source destination : string) : list string :=
  header_lines source destination
  ++ mjoin (section_lines d <$> sorted_keys d)
  ++ summary_lines d.

Definition format_report (d : dict) (source destination : string) : string :=
  Str.join (String Str.LF "") (report_lines d source destination).

(** ** Reading the loop body as a function of the line

    These definitions restate what one turn of the loop decides; they are
    proved equal to the code's [process_line] below and carry the claims. *)

(** The seven pattern tests of the [continue], without the emptiness test. *)
Definition matches_noise_pattern (line : string) : bool :=
  Str.startswith "rsync:" line
  || Str.startswith "sent" line
  || Str.startswith "total size" line
  || Str.startswith "rsync error" line
  || Str.contains "bytes/sec" line
  || Str.startswith "receiving" line
  || Str.startswith "sending" line.

(** The segments of a stripped line: the parts of its path once the
    trailing separators are removed. *)
Definition segments (line : string) : list string :=
  PosixPath.parts (Str.rstrip (Str.is_char Str.SEP) line).

(** The grouping key as a case analysis on the segments. *)
Definition key_of_parts (parts : list string) : option string :=
  match parts with
  | p0 :: p1 :: _ => Some (p0 +:+ "/" +:+ p1)
  | [p0] => Some p0
  | [] => None
  end.

(** A line is accepted when it survives trimming, the noise filter and the
    segment test; [classify] gives its class (directory or file) and key. *)
Definition classify (raw : string) : option (bool * string) :=
  let line := Str.strip raw in
  if is_noise line then None
  else (λ k, (Str.endswith "/" line, k)) <$> key_of_parts (segments line).

Definition step (d : dict) (raw : string) : dict :=
  match classify raw with
  | None => d
  | Some (is_dir, k) => record_line is_dir k (Str.strip raw) d
  end.

(** The stat of a key, the factory value when the key is absent. *)
Definition stat_of (k : string) (d : dict) : DirectoryStat :=
  default default_stat (dict_get k d).

(** The accepted lines routed to key [k], trimmed, in input order. *)
Definition routed (k : string) (ls : list string) : list string :=
  Str.strip <$> List.filter (λ raw, bool_decide (snd <$> classify raw = Some k)) ls.

(** Lines that are non-empty after trimming, match no noise pattern and
    have the given class; [with_segment] asks in addition for at least one
    path segment. *)
Definition plain_line (is_dir : bool) (raw : string) : bool :=
  let line := Str.strip raw in
  negb (Str.is_empty line) && negb (matches_noise_pattern line)
  && bool_decide (Str.endswith "/" line = is_dir).

Definition with_segment (raw : string) : bool :=
  bool_decide (segments (Str.strip raw) ≠ []).

(** What [record_line] does to the stat of its key. *)
Definition record_stat (is_dir : bool) (line : string) (st : DirectoryStat)
    : DirectoryStat :=
  let st1 := if is_dir then incr_dirs st else incr_files st in
  if bool_decide (length (items st1) < 5) then append_item line st1 else st1.

(** The prefixes that mark a status or transfer-summary line. *)
Definition noise_prefixes : list string :=
  ["rsync:"; "rsync error"; "sent"; "total size"; "receiving"; "sending"].

Definition begins_with (p s : string) : Prop := ∃ t, s = p +:+ t.
Definition has_substring (m s : string) : Prop := ∃ a b, s = a +:+ m +:+ b.

Definition noise_shaped (s : string) : Prop :=
  (∃ p, p ∈ noise_prefixes ∧ begins_with p s) ∨ has_substring "bytes/sec" s.

(** ** The run of [main]: exit code and temporary file

    [main] and [run_rsync_comparison] as control flow over the one piece of
    state the cleanup is about: whether the temporary file is on disk. The
    outside world decides, at each point where the script calls out, whether
    the call returns, raises an [Exception] or is cut by the user's
    interrupt. The model covers the runs in which every event happens at
    one of these calls; an interrupt that lands between two calls and the
    flush of the standard streams when the interpreter shuts down are
    outside it. *)

Module Pipeline.

Inductive point :=
| CreateTemp      (* tempfile.NamedTemporaryFile(delete=False) *)
| WhichSshpass    (* subprocess.run(['which', 'sshpass']) *)
| RunRsync        (* subprocess.run(cmd) *)
| SaveOutput      (* open(tmp_path, 'w'), f.write *)
| Analyze         (* analyze_rsync_output *)
| Format          (* format_report *)
| SaveReport      (* mkdir, write_text *)
| Display         (* print(report) *)
| Cleanup.        (* os.path.exists, os.unlink *)

#[global] Instance point_eq_dec : EqDecision point.
Proof. solve_decision. Defined.

Inductive event := Returns | Fails | Interrupted.

Inductive signal :=
| Exception
| KeyboardInterrupt
| SystemExit (code : nat).

Record world := mkWorld { temp_on_disk : bool }.

(** A computation over the world that returns or raises. *)
Definition M (A : Type) : Type := world → (A + signal) * world.

Definition ret {A} (a : A) : M A := λ w, (inl a, w).
Definition raise {A} (e : signal) : M A := λ w, (inr e, w).
Definition seq {A B} (m : M A) (k : A → M B) : M B := λ w,
  match m w with
  | (inl a, w') => k a w'
  | (inr e, w') => (inr e, w')
  end.
Definition try_except {A} (m : M A) (h : signal → M A) : M A := λ w,
  match m w with
  | (inl a, w') => (inl a, w')
  | (inr e, w') => h e w'
  end.
Definition set_temp (b : bool) : M unit := λ _, (inl (), mkWorld b).
Definition get_temp : M bool := λ w, (inl (temp_on_disk w), w).

Notation "m1 ;; m2" := (seq m1 (λ _, m2))
  (at level 100, m2 at level 200, right associativity).

Section run.

(** What happens at each point of this run. *)
Variable env : point → event.

(** A call out of the script. *)
Definition call (p : point) : M unit :=
  match env p with
  | Returns => ret ()
  | Fails => raise Exception
  | Interrupted => raise KeyboardInterrupt
  end.

(** [if os.path.exists(path): os.unlink(path)] *)
Definition unlink_if_exists : M unit :=
  seq get_temp (λ b, if b then set_temp false else ret ()).

Definition run_rsync_comparison (destination : string) : M unit :=
  call CreateTemp ;;
  set_temp true ;;
  try_except
    ((if Str.startswith "owner@" destination || Str.contains "@" destination
      then call WhichSshpass else ret ()) ;;
     call RunRsync ;;
     call SaveOutput)
    (λ e,
       match e with
       | Exception => unlink_if_exists ;; raise (SystemExit 1)
       | _ => raise e
       end).

Definition main_body (destination : string) (quiet : bool) : M unit :=
  try_except
    (run_rsync_comparison destination ;;
     call Analyze ;;
     call Format ;;
     call SaveReport ;;
     (if negb quiet then call Display else ret ()) ;;
     call Cleanup ;;
     unlink_if_exists)
    (λ e,
       match e with
       | KeyboardInterrupt => raise (SystemExit 130)
       | Exception => raise (SystemExit 1)
       | SystemExit c => raise e
       end).

(** The exit code of the process and the world it leaves, from a world
    without the temporary file. *)
Definition main (destination : string) (quiet : bool) : nat * world :=
  match main_body destination quiet (mkWorld false) with
  | (inl _, w) => (0, w)
  | (inr (SystemExit c), w) => (c, w)
  | (inr _, w) => (1, w)
  end.

End run.

(** The run in which the user interrupts at point [p] and every other
    call returns. *)
Definition interrupt_at (p : point) : point → event :=
  λ q, if decide (q = p) then Interrupted else Returns.

(** The run in which the call at point [p] raises an [Exception]. *)
Definition failure_at (p : point) : point → event :=
  λ q, if decide (q = p) then Fails else Returns.

End Pipeline.

(** The last character of [p] exists and is not stripped by [f]. *)
Fixpoint ends_solid (f : ascii → bool) (p : string) : bool :=
  match p with
  | "" => false
  | String a "" => negb (f a)
  | String _ p' => ends_solid f p'
  end.

Definition starts_solid (f : ascii → bool) (p : string) : bool :=
  match p with
  | "" => false
  | String a _ => negb (f a)
  end.

(** The loop invariant of the samples: after the lines [pre], every key
    holds the first five of the lines routed to it. *)
Definition samples_inv (pre : list string) (d : dict) : Prop :=
  ∀ k, items (stat_of k d) = take 5 (routed k pre).

(** A line counted once under key [k]: the counter of its class moves by
    one, the other counter of that key stays, and every other key keeps its
    stat. *)
Definition counted_under (is_dir : bool) (k : string) (d d' : dict) : Prop :=
  files (stat_of k d') = files (stat_of k d) + (if is_dir then 0 else 1)
  ∧ dirs (stat_of k d') = dirs (stat_of k d) + (if is_dir then 1 else 0)
  ∧ ∀ k', k' ≠ k → dict_get k' d' = dict_get k' d.

(** The end-to-end scenario of the specification. *)
Definition scenario_lines : list string :=
  [ "docs/";
    "docs/readme.txt";
    "docs/notes/todo.txt";
    "media/photo.png";
    "sent 100 bytes  received 20 bytes  50.00 bytes/sec" ].

Definition scenario_result : dict :=
  [ ("docs", mkStat 0 1 ["docs/"]);
    ("docs/readme.txt", mkStat 1 0 ["docs/readme.txt"]);
    ("docs/notes", mkStat 1 0 ["docs/notes/todo.txt"]);
    ("media/photo.png", mkStat 1 0 ["media/photo.png"]) ].

(** ** The command of [run_rsync_comparison] *)

(** The argument vector handed to [subprocess.run]; [sshpass_found] is
    whether [which sshpass] returned 0. *)
Definition rsync_cmd (source destination : string) (sshpass_found : bool)
    : list string :=
  let cmd := ["rsync"; "-avn"; "--progress"; source; destination] in
  if Str.startswith "owner@" destination || Str.contains "@" destination then
    if sshpass_found then ["sshpass"; "-p"; "2312"] ++ cmd else cmd
  else cmd.

(** ** The default output location *)

(** [str(Path(path))]: a [Path] is kept as its string, which decides
    equality of paths. *)
Definition path_str (path : string) : string :=
  let '(root, tail) := PosixPath.parse_path path in
  let s := root +:+ Str.join "/" tail in
  if Str.is_empty s then "." else s.

(** The state of [CONFIG_FILE]. *)
Inductive config_file :=
| Absent
| Unreadable
| Content (text : string).

(** What [read_text()] returns for the characters of a file: the file is
    opened with the default [newline=None], so ["\r\n"] and ["\r"] are read
    as ["\n"]. *)
Fixpoint translate_newlines (s : string) : string :=
  match s with
  | "" => ""
  | String c rest =>
      if bool_decide (c = Str.CR) then
        match rest with
        | String c' rest' =>
            if bool_decide (c' = Str.LF)
            then String Str.LF (translate_newlines rest')
            else String Str.LF (translate_newlines rest)
        | "" => String Str.LF ""
        end
      else String c (translate_newlines rest)
  end.

Section config.

(** [DEFAULT_OUTPUT], which depends on the home directory. *)
Variable default_output : string.

Definition load_default_output (cfg : config_file) : string :=
  match cfg with
  | Content text => path_str (Str.strip (translate_newlines text))
  | Unreadable => default_output
  | Absent => default_output
  end.

(** [save_default_output(path)], for a [Path] given as its string; the
    write is taken to succeed, and on a POSIX host it stores the characters
    as they are. *)
Definition save_default_output (path : string) (cfg : config_file)
    : config_file :=
  Content path.

End config.

(** ** The arguments of [main] *)

Module Cli.

Record args := mkArgs {
  source : option string;
  destination : option string;
  output : option string;
  set_default : option string;
  no_compare : bool;
  quiet : bool
}.

(** Where the part of [main] before the [try] ends. *)
Inductive outcome :=
| Exit (code : nat)
| AttributeError
| Compare (rsync_source rsync_destination : string)
          (label_source label_destination : string)
          (output_path : string) (quiet : bool).

(** The truth value of an optional string argument. *)
Definition truthy (x : option string) : bool :=
  match x with
  | Some (String _ _) => true
  | _ => false
  end.

Definition normalize_source (s : string) : string :=
  if negb (Str.endswith "/" s) && negb (Str.contains "@" s) then s +:+ "/"
  else s.

Definition normalize_destination (s : string) : string :=
  if negb (Str.endswith "/" s) then s +:+ "/" else s.

Section main.

Variable default_output : string.

(** [main] up to the [try]: the outcome and the configuration file it
    leaves. [parser.error] exits with status 2; [None.endswith] raises
    [AttributeError] outside the [try]. *)
Definition main (a : args) (cfg : config_file) : outcome * config_file :=
  let cfg1 :=
    match set_default a with
    | Some p => save_default_output (path_str p) cfg
    | None => cfg
    end in
  if bool_decide (is_Some (set_default a)) && no_compare a then (Exit 0, cfg1)
  else if negb (no_compare a)
          && (negb (truthy (source a)) || negb (truthy (destination a)))
  then (Exit 2, cfg1)
  else
    let output_path :=
      match output a with
      | Some o => path_str o
      | None => load_default_output default_output cfg1
      end in
    match source a with
    | None => (AttributeError, cfg1)
    | Some src =>
        match destination a with
        | None => (AttributeError, cfg1)
        | Some dst =>
            (Compare (normalize_source src) (normalize_destination dst)
                     src dst output_path (quiet a), cfg1)
        end
    end.

End main.

End Cli.

(** ** Readings of the input used by the further properties *)

(** The lines of class [c] (directory or file) accepted under key [k]. *)
Definition routed_class (c : bool) (k : string) (ls : list string)
    : list string :=
  filter (λ raw, classify raw = Some (c, k)) ls.

(** No line end inside the string. *)
Fixpoint no_newline (s : string) : bool :=
  match s with
  | "" => true
  | String c s' =>
      negb (bool_decide (c = Str.LF)) && negb (bool_decide (c = Str.CR))
      && no_newline s'
  end.

(** The text of a file holding the given lines, each ended by [eol]. *)
Definition unlines_with (eol : string) (ls : list string) : string :=
  foldr (λ l acc, l +:+ eol +:+ acc) "" ls.

(** The three line ends of universal newlines. *)
Definition line_ends : list string :=
  [ String Str.LF ""; String Str.CR (String Str.LF ""); String Str.CR "" ].

(** Every character of the string satisfies [f]. *)
Fixpoint all_chars (f : ascii → bool) (s : string) : bool :=
  match s with
  | "" => true
  | String c s' => f c && all_chars f s'
  end.

(** The string does not begin with a line feed. *)
Definition head_not_LF (s : string) : bool :=
  match s with
  | "" => true
  | String c _ => negb (bool_decide (c = Str.LF))
  end.

(** A path component as [_parse_path] keeps them: no separator inside,
    neither empty nor ["."]. *)
Definition good_part (x : string) : bool :=
  all_chars (λ c, negb (Str.is_char Str.SEP c)) x && PosixPath.keep_part x.

(** The dict with every sample list cut to its first three entries. *)
Definition shown_only (d : dict) : dict :=
  (λ e, (e.1, mkStat (files e.2) (dirs e.2) (take 3 (items e.2)))) <$> d.

(** The line passes the noise filter and its segments give the key [k]. *)
Definition keyed (k raw : string) : Prop :=
  is_noise (Str.strip raw) = false
  ∧ key_of_parts (segments (Str.strip raw)) = Some k.

#[global] Instance keyed_dec k raw : Decision (keyed k raw).
Proof. unfold keyed. apply _. Defined.

(** No carriage return in the string. *)
Definition no_CR (s : string) : bool :=
  all_chars (λ c, negb (bool_decide (c = Str.CR))) s.

(** ** String lemmas *)

Section string_facts.

Lemma append_cons a s t : String a s +:+ t = String a (s +:+ t).
Proof. reflexivity. Qed.

Lemma append_nil_l t : "" +:+ t = t.
Proof. reflexivity. Qed.

Lemma append_assoc s t u : (s +:+ t) +:+ u = s +:+ (t +:+ u).
Proof.
  induction s as [|a s IH]; [done|].
  rewrite !append_cons. by rewrite IH.
Qed.

Lemma startswith_begins p s : Str.startswith p s = true ↔ begins_with p s.
Proof.
  revert s. induction p as [|a p IH]; intros s; simpl.
  - split; [intros _; by exists s|done].
  - destruct s as [|b s].
    + split; [done|]. intros [t Ht]. by rewrite append_cons in Ht.
    + rewrite andb_true_iff, bool_decide_eq_true, IH. split.
      * intros [-> [t ->]]. by exists t.
      * intros [t Ht]. rewrite append_cons in Ht.
        injection Ht as -> ->. split; [done|by exists t].
Qed.

Lemma contains_has_substring m s : Str.contains m s = true ↔ has_substring m s.
Proof.
  induction s as [|c s IH]; simpl.
  - rewrite orb_false_r, startswith_begins. split.
    + intros [t Ht]. exists "", t. by rewrite append_nil_l.
    + intros [a [b Hab]]. destruct a as [|x a]; [by exists b|done].
  - rewrite orb_true_iff, IH.
    rewrite startswith_begins. split.
    + intros [[t Ht]|[a [b Hab]]].
      * exists "", t. by rewrite append_nil_l.
      * exists (String c a), b. rewrite append_cons. by rewrite Hab.
    + intros [a [b Hab]]. destruct a as [|x a].
      * left. by exists b.
      * right. rewrite append_cons in Hab. injection Hab as -> ->.
        by exists a, b.
Qed.

End string_facts.

(** ** The defaultdict *)

Section dict_facts.

Implicit Types (d : dict) (k : string) (f : DirectoryStat → DirectoryStat).

Lemma dict_get_list_to_map k d :
  dict_get k d = (list_to_map d : gmap string DirectoryStat) !! k.
Proof.
  induction d as [|[k' v] d IH]; simpl; [by rewrite lookup_empty|].
  rewrite lookup_insert. by destruct (decide (k' = k)).
Qed.

Lemma dict_get_Some_elem_of k v d : dict_get k d = Some v → (k, v) ∈ d.
Proof.
  induction d as [|[k' v'] d IH]; simpl; [done|].
  destruct (decide (k' = k)) as [->|]; [intros [= ->]; left|right; auto].
Qed.

Lemma dict_get_is_Some k d : is_Some (dict_get k d) ↔ k ∈ d.*1.
Proof.
  rewrite dict_get_list_to_map, <-elem_of_dom, dom_list_to_map_L.
  by rewrite elem_of_list_to_set.
Qed.

Lemma dict_get_update_eq f k d :
  dict_get k (dd_update f k d) = Some (f (stat_of k d)).
Proof.
  unfold stat_of. induction d as [|[k' v] d IH]; simpl.
  - by rewrite decide_True.
  - destruct (decide (k' = k)) as [->|Hne]; simpl.
    + by rewrite decide_True.
    + by rewrite decide_False.
Qed.

Lemma dict_get_update_ne f k k' d :
  k' ≠ k → dict_get k' (dd_update f k d) = dict_get k' d.
Proof.
  intros Hne. induction d as [|[k0 v] d IH]; simpl.
  - by rewrite decide_False.
  - destruct (decide (k0 = k)) as [->|?]; simpl.
    + by rewrite !decide_False.
    + by rewrite IH.
Qed.

Lemma keys_update f k d :
  (dd_update f k d).*1 = if decide (k ∈ d.*1) then d.*1 else d.*1 ++ [k].
Proof.
  induction d as [|[k0 v] d IH].
  - by rewrite decide_False by (by intros ?%elem_of_nil).
  - rewrite fmap_cons. cbn [dd_update fst].
    destruct (decide (k0 = k)) as [->|Hne]; rewrite fmap_cons; cbn [fst].
    + by rewrite decide_True by left.
    + rewrite IH. destruct (decide (k ∈ d.*1)) as [Hin|Hnin].
      * by rewrite decide_True by (by right).
      * by rewrite decide_False by (intros [?|?]%elem_of_cons; congruence).
Qed.

Lemma NoDup_keys_update f k d : NoDup d.*1 → NoDup (dd_update f k d).*1.
Proof.
  intros Hnd. rewrite keys_update. case_decide; [done|].
  apply NoDup_app. split_and!; [done| |apply NoDup_singleton].
  intros x Hx ->%list_elem_of_singleton. done.
Qed.

Lemma elem_of_keys_update f k k' d :
  k' ∈ (dd_update f k d).*1 ↔ k' = k ∨ k' ∈ d.*1.
Proof.
  rewrite keys_update. destruct (decide (k ∈ d.*1)) as [Hin|Hnin].
  - split; [by right|]. by intros [->|?].
  - rewrite elem_of_app, list_elem_of_singleton. tauto.
Qed.

(** A sum over the stats moves by what the update does to the stat of
    [k]. *)
Lemma sum_update (g : DirectoryStat → nat) f k d :
  g default_stat = 0 →
  (sum_list ((g ∘ snd) <$> dd_update f k d) + g (stat_of k d)
   = sum_list ((g ∘ snd) <$> d) + g (f (stat_of k d)))%nat.
Proof.
  intros Hg. unfold stat_of. induction d as [|[k0 v] d IH]; csimpl; [lia|].
  destruct (decide (k0 = k)) as [->|Hne]; csimpl; lia.
Qed.

Lemma dd_getitem_update f k d :
  dd_getitem k (dd_update f k d) = (f (stat_of k d), dd_update f k d).
Proof. unfold dd_getitem. by rewrite dict_get_update_eq. Qed.

End dict_facts.

(** ** One turn of the loop *)

Section loop_facts.

Implicit Types (d : dict) (k line raw : string).

Lemma record_line_unfold is_dir k line d :
  record_line is_dir k line d =
  let g := if is_dir then incr_dirs else incr_files in
  let d1 := dd_update g k d in
  if bool_decide (length (items (g (stat_of k d))) < 5)
  then dd_update (append_item line) k d1 else d1.
Proof.
  unfold record_line. destruct is_dir; by rewrite dd_getitem_update.
Qed.

Lemma dict_get_record_eq is_dir k line d :
  dict_get k (record_line is_dir k line d)
  = Some (record_stat is_dir line (stat_of k d)).
Proof.
  rewrite record_line_unfold. unfold record_stat. cbv zeta.
  destruct is_dir; case_bool_decide;
    rewrite ?dict_get_update_eq; unfold stat_of;
    by rewrite ?dict_get_update_eq.
Qed.

Lemma dict_get_record_ne is_dir k k' line d :
  k' ≠ k → dict_get k' (record_line is_dir k line d) = dict_get k' d.
Proof.
  intros Hne. rewrite record_line_unfold. cbv zeta.
  case_bool_decide; by rewrite !dict_get_update_ne.
Qed.

Lemma elem_of_keys_record is_dir k k' line d :
  k' ∈ (record_line is_dir k line d).*1 ↔ k' = k ∨ k' ∈ d.*1.
Proof.
  rewrite record_line_unfold. cbv zeta.
  case_bool_decide; rewrite !elem_of_keys_update; tauto.
Qed.

Lemma NoDup_keys_record is_dir k line d :
  NoDup d.*1 → NoDup (record_line is_dir k line d).*1.
Proof.
  intros Hnd. rewrite record_line_unfold. cbv zeta.
  case_bool_decide; auto using NoDup_keys_update.
Qed.

Lemma total_files_record is_dir k line d :
  total_files (record_line is_dir k line d)
  = total_files d + (if is_dir then 0 else 1).
Proof.
  rewrite record_line_unfold. cbv zeta. unfold total_files.
  set (g := if is_dir then incr_dirs else incr_files).
  pose proof (sum_update files g k d eq_refl) as H1.
  pose proof (sum_update files (append_item line) k (dd_update g k d) eq_refl)
    as H2.
  unfold stat_of in H2. rewrite dict_get_update_eq in H2. simpl in H2.
  case_bool_decide; destruct is_dir; simpl in *; lia.
Qed.

Lemma total_dirs_record is_dir k line d :
  total_dirs (record_line is_dir k line d)
  = total_dirs d + (if is_dir then 1 else 0).
Proof.
  rewrite record_line_unfold. cbv zeta. unfold total_dirs.
  set (g := if is_dir then incr_dirs else incr_files).
  pose proof (sum_update dirs g k d eq_refl) as H1.
  pose proof (sum_update dirs (append_item line) k (dd_update g k d) eq_refl)
    as H2.
  unfold stat_of in H2. rewrite dict_get_update_eq in H2. simpl in H2.
  case_bool_decide; destruct is_dir; simpl in *; lia.
Qed.

Lemma is_noise_split line :
  is_noise line = Str.is_empty line || matches_noise_pattern line.
Proof.
  unfold is_noise, matches_noise_pattern.
  by destruct (Str.is_empty line).
Qed.

(** The indexing of [parent_key] stays in range. *)
Lemma parent_key_ok (parts : list string) :
  parent_key parts = Ok (key_of_parts parts).
Proof.
  unfold parent_key.
  destruct parts as [|p0 [|p1 ps]]; repeat case_bool_decide;
    simpl in *; try lia; done.
Qed.

Lemma process_line_step d raw : process_line d raw = Ok (step d raw).
Proof.
  unfold process_line, step, classify, segments.
  destruct (is_noise (Str.strip raw)); [done|].
  rewrite parent_key_ok.
  by destruct (key_of_parts _).
Qed.

Lemma analyze_lines_fold d ls : analyze_lines d ls = Ok (foldl step d ls).
Proof.
  revert d. induction ls as [|l ls IH]; intros d; [done|].
  cbn [analyze_lines foldl]. rewrite process_line_step. apply IH.
Qed.

Lemma step_accepted d raw is_dir k :
  classify raw = Some (is_dir, k) →
  step d raw = record_line is_dir k (Str.strip raw) d.
Proof. unfold step. by intros ->. Qed.

Lemma step_discarded d raw : classify raw = None → step d raw = d.
Proof. unfold step. by intros ->. Qed.

End loop_facts.

(** ** Path parts *)

Section path_facts.

Lemma parts_nonempty p x : x ∈ PosixPath.parts p → x ≠ "".
Proof.
  unfold PosixPath.parts, PosixPath.parse_path.
  destruct (Str.is_empty p); [by intros ?%elem_of_nil|].
  destruct (PosixPath.splitroot p) as [root rel].
  assert (∀ y, y ∈ List.filter PosixPath.keep_part (Str.split Str.SEP rel)
               → y ≠ "") as Htail.
  { intros y [_ Hy]%list_elem_of_In%filter_In ->. done. }
  destruct root as [|c root]; simpl; [apply Htail|].
  intros [->|?]%elem_of_cons; [done|auto].
Qed.

(** An absolute path has its root as first part: one separator, or two
    when the path begins with exactly two. *)
Lemma parts_absolute s :
  ∃ root tail, PosixPath.parts (String "/" s) = root :: tail
               ∧ (root = "/" ∨ root = "//").
Proof.
  unfold PosixPath.parts, PosixPath.parse_path, PosixPath.splitroot.
  destruct s as [|c1 [|c2 s]]; simpl.
  - eauto.
  - destruct (decide (c1 = "/"%char)) as [->|Hne]; simpl; [eauto|].
    rewrite bool_decide_eq_false_2 by congruence. simpl. eauto.
  - destruct (decide (c1 = "/"%char)) as [->|Hne]; simpl.
    + destruct (decide (c2 = "/"%char)) as [->|Hne2]; simpl; [eauto|].
      rewrite bool_decide_eq_false_2 by congruence. simpl. eauto.
    + rewrite bool_decide_eq_false_2 by congruence. simpl. eauto.
Qed.

Lemma rstrip_cons p c s :
  Str.rstrip p (String c s) = "" ∨ ∃ s', Str.rstrip p (String c s) = String c s'.
Proof. simpl. destruct (p c && _); eauto. Qed.

Lemma key_of_parts_nonempty parts k :
  (∀ x, x ∈ parts → x ≠ "") → key_of_parts parts = Some k → k ≠ "".
Proof.
  intros Hne. destruct parts as [|p0 [|p1 ps]]; simpl; [done| |].
  - intros [= <-]. apply Hne. left.
  - intros [= <-]. by destruct p0.
Qed.

Lemma classify_key_nonempty raw is_dir k :
  classify raw = Some (is_dir, k) → k ≠ "".
Proof.
  unfold classify. destruct (is_noise _); [done|].
  destruct (key_of_parts _) as [k'|] eqn:Hk; [|done].
  intros [= _ <-]. eapply key_of_parts_nonempty; [|done].
  intros x. apply parts_nonempty.
Qed.

Lemma classify_segments raw :
  classify raw =
  if is_noise (Str.strip raw) then None
  else match segments (Str.strip raw) with
       | p0 :: p1 :: _ =>
           Some (Str.endswith "/" (Str.strip raw), p0 +:+ "/" +:+ p1)
       | [p0] => Some (Str.endswith "/" (Str.strip raw), p0)
       | [] => None
       end.
Proof.
  unfold classify. destruct (is_noise _); [done|].
  by destruct (segments _) as [|p0 [|p1 ps]].
Qed.

End path_facts.

Lemma record_line_counted is_dir k line d :
  counted_under is_dir k d (record_line is_dir k line d).
Proof.
  unfold counted_under, stat_of at 1 3. rewrite dict_get_record_eq.
  split_and!.
  - unfold record_stat. cbv zeta. destruct is_dir; case_bool_decide; simpl; lia.
  - unfold record_stat. cbv zeta. destruct is_dir; case_bool_decide; simpl; lia.
  - intros k' Hne. by apply dict_get_record_ne.
Qed.

(** ** The end-to-end scenario *)

(** C1, as the code has it: on the five scenario lines (with or without a
    final newline) the aggregation has four keys, since every line with two
    or more segments is keyed by its first two: ["docs"] (0 files, 1
    directory, sample [docs/]), ["docs/readme.txt"], ["docs/notes"] and
    ["media/photo.png"] (1 file, 0 directories and the line itself as sample
    each). The grand totals are 3 files, 1 directory, 4 items and 4 keys. *)
Theorem scenario_aggregation :
  analyze_rsync_output (Str.unlines scenario_lines) = Ok scenario_result
  ∧ analyze_rsync_output (Str.join (String Str.LF "") scenario_lines)
    = Ok scenario_result
  ∧ total_files scenario_result = 3
  ∧ total_dirs scenario_result = 1
  ∧ total_files scenario_result + total_dirs scenario_result = 4
  ∧ length scenario_result = 4.
Proof. repeat split; vm_compute; reflexivity. Qed.

(** C1, as stated, fails: the result on the scenario does not consist of
    the two keys ["docs"] and ["media"] with the stated stats and totals. *)
Lemma scenario_not_two_keys :
  ¬ ∃ d, analyze_rsync_output (Str.unlines scenario_lines) = Ok d
         ∧ d.*1 ≡ₚ ["docs"; "media"]
         ∧ dict_get "docs" d
           = Some (mkStat 2 1 ["docs/"; "docs/readme.txt"; "docs/notes/todo.txt"])
         ∧ dict_get "media" d = Some (mkStat 1 0 ["media/photo.png"])
         ∧ total_files d = 3 ∧ total_dirs d = 1
         ∧ total_files d + total_dirs d = 4
         ∧ length d = 2.
Proof.
  intros (d & Hd & _ & Hdocs & _).
  assert (Ok scenario_result = Ok d) as [= <-]
    by (rewrite <-Hd; vm_compute; reflexivity).
  vm_compute in Hdocs. discriminate.
Qed.

(** ** Grouping keys *)

Ltac counted_example cls key :=
  intros d; rewrite process_line_step; eexists; split; [reflexivity|];
  rewrite (step_accepted d _ cls key) by (vm_compute; reflexivity);
  apply record_line_counted.

(** C2: ["a/b/c"] is counted as a file under ["a/b"], ["a"] as a file under
    ["a"], and ["a/b/"] as a directory under ["a/b"] (the file counter of
    that key does not move). In general a line that passes the noise filter
    is counted under its first two segments joined by the separator when it
    has two or more, under its only segment when it has one, and leaves the
    result as it is when it has none. *)
Theorem grouping_key_derivation :
  (∀ d, ∃ d', process_line d "a/b/c" = Ok d' ∧ counted_under false "a/b" d d')
  ∧ (∀ d, ∃ d', process_line d "a" = Ok d' ∧ counted_under false "a" d d')
  ∧ (∀ d, ∃ d', process_line d "a/b/" = Ok d' ∧ counted_under true "a/b" d d')
  ∧ (∀ d raw,
       is_noise (Str.strip raw) = false →
       match segments (Str.strip raw) with
       | p0 :: p1 :: _ =>
           ∃ d', process_line d raw = Ok d'
                 ∧ counted_under (Str.endswith "/" (Str.strip raw))
                                 (p0 +:+ "/" +:+ p1) d d'
       | [p0] =>
           ∃ d', process_line d raw = Ok d'
                 ∧ counted_under (Str.endswith "/" (Str.strip raw)) p0 d d'
       | [] => process_line d raw = Ok d
       end).
Proof.
  split_and!.
  - counted_example false "a/b".
  - counted_example false "a".
  - counted_example true "a/b".
  - intros d raw Hnoise. rewrite process_line_step.
    pose proof (classify_segments raw) as Hc. rewrite Hnoise in Hc.
    destruct (segments (Str.strip raw)) as [|p0 [|p1 ps]].
    + by rewrite step_discarded.
    + eexists; split; [done|]. rewrite (step_accepted _ _ _ _ Hc).
      apply record_line_counted.
    + eexists; split; [done|]. rewrite (step_accepted _ _ _ _ Hc).
      apply record_line_counted.
Qed.

Lemma grouping_key_derivation_witness :
  is_noise (Str.strip "  x/y/z.txt ") = false
  ∧ ∃ d', process_line [] "  x/y/z.txt " = Ok d' ∧ counted_under false "x/y" [] d'.
Proof.
  split; [reflexivity|].
  exact (proj2 (proj2 (proj2 grouping_key_derivation)) [] "  x/y/z.txt " eq_refl).
Defined.

(** C10: an absolute path has its root as first segment. ["/a/b"] has the
    segments ["/"], ["a"], ["b"] and is counted under ["//a"], leaving the
    key ["a/b"] alone; ["/a"] is counted under ["//a"] as well. In general
    an accepted line that begins with the separator has the root (one
    separator, or two) as first segment, and is counted under the root
    joined by a separator with the next segment, or under the root alone
    when there is no other segment. *)
Theorem absolute_path_root_segment :
  segments "/a/b" = ["/"; "a"; "b"]
  ∧ (∀ d, ∃ d', process_line d "/a/b" = Ok d' ∧ counted_under false "//a" d d'
               ∧ dict_get "a/b" d' = dict_get "a/b" d)
  ∧ segments "/a" = ["/"; "a"]
  ∧ (∀ d, ∃ d', process_line d "/a" = Ok d' ∧ counted_under false "//a" d d')
  ∧ (∀ d raw,
       is_noise (Str.strip raw) = false →
       begins_with "/" (Str.strip raw) →
       segments (Str.strip raw) ≠ [] →
       ∃ root tail d',
         segments (Str.strip raw) = root :: tail
         ∧ (root = "/" ∨ root = "//")
         ∧ process_line d raw = Ok d'
         ∧ counted_under (Str.endswith "/" (Str.strip raw))
                         (match tail with
                          | [] => root
                          | p1 :: _ => root +:+ "/" +:+ p1
                          end) d d').
Proof.
  split_and!.
  - reflexivity.
  - intros d. rewrite process_line_step. eexists; split; [reflexivity|].
    rewrite (step_accepted d _ false "//a") by (vm_compute; reflexivity).
    split; [apply record_line_counted|]. by apply dict_get_record_ne.
  - reflexivity.
  - counted_example false "//a".
  - intros d raw Hnoise [t Ht] Hseg. rewrite process_line_step.
    pose proof (classify_segments raw) as Hc. rewrite Hnoise in Hc.
    unfold segments in *. rewrite Ht in *. rewrite append_cons in *.
    destruct (rstrip_cons (Str.is_char Str.SEP) "/" ("" +:+ t)) as [He|[s' He]];
      rewrite He in *; [done|].
    destruct (parts_absolute s') as (root & tail & Hp & Hroot).
    rewrite Hp in *. exists root, tail. eexists. split_and!; [done..|].
    destruct tail as [|p1 tail]; rewrite (step_accepted _ _ _ _ Hc);
      apply record_line_counted.
Qed.

Lemma absolute_path_root_segment_witness :
  ∃ root tail d',
    segments (Str.strip "//srv/www/index.html") = root :: tail
    ∧ (root = "/" ∨ root = "//")
    ∧ process_line [] "//srv/www/index.html" = Ok d'
    ∧ counted_under (Str.endswith "/" (Str.strip "//srv/www/index.html"))
                    (match tail with
                     | [] => root
                     | p1 :: _ => root +:+ "/" +:+ p1
                     end) [] d'.
Proof.
  apply (proj2 (proj2 (proj2 (proj2 absolute_path_root_segment))) []
           "//srv/www/index.html").
  - reflexivity.
  - by exists "/srv/www/index.html".
  - vm_compute. discriminate.
Defined.

(** ** One line, one counter *)

(** C5: an accepted line (not noise after trimming, at least one segment)
    moves exactly one counter of exactly one key by one: the directory
    counter when the line ends with the separator, the file counter
    otherwise, never both; every other key keeps its stat, and the sum of
    all counters grows by exactly one. *)
Theorem accepted_line_counts_once d raw :
  is_noise (Str.strip raw) = false →
  segments (Str.strip raw) ≠ [] →
  ∃ k d',
    process_line d raw = Ok d'
    ∧ (if Str.endswith "/" (Str.strip raw)
       then dirs (stat_of k d') = S (dirs (stat_of k d))
            ∧ files (stat_of k d') = files (stat_of k d)
       else files (stat_of k d') = S (files (stat_of k d))
            ∧ dirs (stat_of k d') = dirs (stat_of k d))
    ∧ (∀ k', k' ≠ k → dict_get k' d' = dict_get k' d)
    ∧ total_files d' + total_dirs d' = S (total_files d + total_dirs d).
Proof.
  intros Hnoise Hseg. rewrite process_line_step.
  pose proof (classify_segments raw) as Hc. rewrite Hnoise in Hc.
  assert (∃ k, classify raw = Some (Str.endswith "/" (Str.strip raw), k))
    as [k Hk].
  { destruct (segments (Str.strip raw)) as [|p0 [|p1 ps]]; [done|eauto..]. }
  exists k. eexists. split; [done|].
  rewrite (step_accepted _ _ _ _ Hk).
  destruct (record_line_counted (Str.endswith "/" (Str.strip raw)) k
              (Str.strip raw) d) as (Hf & Hd & Hother).
  rewrite total_files_record, total_dirs_record.
  split_and!; [|done|].
  - destruct (Str.endswith _ _); lia.
  - destruct (Str.endswith _ _); lia.
Qed.

Lemma accepted_line_counts_once_witness :
  ∃ k d',
    process_line [("src", mkStat 4 0 [])] "src/lib/" = Ok d'
    ∧ (if Str.endswith "/" (Str.strip "src/lib/")
       then dirs (stat_of k d') = S (dirs (stat_of k [("src", mkStat 4 0 [])]))
            ∧ files (stat_of k d') = files (stat_of k [("src", mkStat 4 0 [])])
       else files (stat_of k d') = S (files (stat_of k [("src", mkStat 4 0 [])]))
            ∧ dirs (stat_of k d') = dirs (stat_of k [("src", mkStat 4 0 [])]))
    ∧ (∀ k', k' ≠ k → dict_get k' d' = dict_get k' [("src", mkStat 4 0 [])])
    ∧ total_files d' + total_dirs d'
      = S (total_files [("src", mkStat 4 0 [])] + total_dirs [("src", mkStat 4 0 [])]).
Proof.
  apply (accepted_line_counts_once [("src", mkStat 4 0 [])] "src/lib/").
  - reflexivity.
  - vm_compute. discriminate.
Defined.

(** ** Interrupts and the temporary file *)

(** C4 on the code: when the user interrupts while rsync runs, the process
    exits with code 130 and the temporary file is still on disk; the same
    holds for an interrupt at any later call of the pipeline. The sibling
    paths do clean up: a run without incident exits with 0 and a failing
    rsync call exits with 1, both with the temporary file removed. *)
Theorem interrupt_leaves_temp_file (destination : string) (quiet : bool) :
  Pipeline.main (Pipeline.interrupt_at Pipeline.RunRsync) destination quiet
  = (130, Pipeline.mkWorld true)
  ∧ Pipeline.main (Pipeline.interrupt_at Pipeline.SaveOutput) destination quiet
    = (130, Pipeline.mkWorld true)
  ∧ Pipeline.main (Pipeline.interrupt_at Pipeline.Analyze) destination quiet
    = (130, Pipeline.mkWorld true)
  ∧ Pipeline.main (Pipeline.interrupt_at Pipeline.SaveReport) destination quiet
    = (130, Pipeline.mkWorld true)
  ∧ Pipeline.main (λ _, Pipeline.Returns) destination quiet
    = (0, Pipeline.mkWorld false)
  ∧ Pipeline.main (Pipeline.failure_at Pipeline.RunRsync) destination quiet
    = (1, Pipeline.mkWorld false).
Proof.
  unfold Pipeline.main, Pipeline.main_body, Pipeline.run_rsync_comparison.
  split_and!; by destruct (_ || _), quiet.
Qed.

(** ** Totals against the input *)

Section totals.

(** How a line fares: discarded, or accepted with one class. *)
Lemma classify_plain raw :
  match classify raw with
  | None =>
      ∀ c, plain_line c raw && with_segment raw = false
  | Some (is_dir, _) =>
      plain_line is_dir raw && with_segment raw = true
      ∧ plain_line (negb is_dir) raw && with_segment raw = false
  end.
Proof.
  rewrite classify_segments. unfold plain_line, with_segment.
  rewrite is_noise_split.
  destruct (Str.is_empty _); simpl; [done|].
  destruct (matches_noise_pattern _); simpl; [done|].
  destruct (segments _) as [|p0 [|p1 ps]]; simpl.
  - intros c. apply andb_false_r.
  - rewrite bool_decide_eq_true_2 by done.
    by rewrite bool_decide_eq_false_2 by (by destruct (Str.endswith _ _)).
  - rewrite bool_decide_eq_true_2 by done.
    by rewrite bool_decide_eq_false_2 by (by destruct (Str.endswith _ _)).
Qed.

Lemma totals_step d raw :
  total_files (step d raw)
  = total_files d + (if plain_line false raw && with_segment raw then 1 else 0)
  ∧ total_dirs (step d raw)
    = total_dirs d + (if plain_line true raw && with_segment raw then 1 else 0).
Proof.
  pose proof (classify_plain raw) as Hc. unfold step.
  destruct (classify raw) as [[is_dir k]|].
  - rewrite total_files_record, total_dirs_record.
    destruct Hc as [Hyes Hno]. destruct is_dir; simpl in Hno;
      by rewrite Hyes, Hno.
  - rewrite !Hc. lia.
Qed.

Lemma totals_fold ls d :
  total_files (foldl step d ls)
  = total_files d
    + length (List.filter (λ raw, plain_line false raw && with_segment raw) ls)
  ∧ total_dirs (foldl step d ls)
    = total_dirs d
      + length (List.filter (λ raw, plain_line true raw && with_segment raw) ls).
Proof.
  revert d. induction ls as [|raw ls IH]; intros d; simpl; [lia|].
  destruct (IH (step d raw)) as [-> ->].
  destruct (totals_step d raw) as [-> ->].
  split; destruct (_ && _); simpl; lia.
Qed.

End totals.

(** C3, as stated, fails: on the two lines ["."] and ["/"] nothing is
    counted, while one line is non-empty, not noise and file-classified and
    one is non-empty, not noise and directory-classified. *)
Lemma totals_miss_segmentless_lines :
  ∃ d, analyze_rsync_output (Str.unlines ["."; "/"]) = Ok d
       ∧ total_files d
         ≠ length (List.filter (plain_line false)
                     (Str.readlines (Str.unlines ["."; "/"])))
       ∧ total_dirs d
         ≠ length (List.filter (plain_line true)
                     (Str.readlines (Str.unlines ["."; "/"]))).
Proof. exists []. vm_compute. split_and!; [reflexivity|lia..]. Qed.

(** C3, as the code has it: the per-key file counts sum to the number of
    input lines that are non-empty after trimming, match no noise pattern,
    are classified as files and yield at least one path segment; likewise
    for the directory counts. *)
Theorem totals_match_accepted_lines (text : string) :
  ∃ d, analyze_rsync_output text = Ok d
       ∧ total_files d
         = length (List.filter (λ raw, plain_line false raw && with_segment raw)
                     (Str.readlines text))
       ∧ total_dirs d
         = length (List.filter (λ raw, plain_line true raw && with_segment raw)
                     (Str.readlines text)).
Proof.
  unfold analyze_rsync_output. rewrite analyze_lines_fold.
  eexists; split; [done|]. apply (totals_fold _ []).
Qed.

(** ** Samples *)

Section samples.

Lemma routed_snoc k pre raw :
  routed k (pre ++ [raw])
  = routed k pre
    ++ (if bool_decide (snd <$> classify raw = Some k)
        then [Str.strip raw] else []).
Proof.
  unfold routed. rewrite List.filter_app, fmap_app. simpl.
  by destruct (bool_decide _).
Qed.

Lemma take_snoc {A} (n : nat) (l : list A) x :
  take n (l ++ [x])
  = if bool_decide (length (take n l) < n) then take n l ++ [x] else take n l.
Proof.
  rewrite length_take. case_bool_decide.
  - rewrite take_app, (take_ge l) by lia.
    destruct (n - length l) as [|m] eqn:Hm; [lia|]. by destruct m.
  - by rewrite take_app_le by lia.
Qed.

Lemma samples_inv_step pre d raw :
  samples_inv pre d → samples_inv (pre ++ [raw]) (step d raw).
Proof.
  intros Hinv k. rewrite routed_snoc. unfold step.
  destruct (classify raw) as [[is_dir k0]|] eqn:Hc; simpl.
  - destruct (decide (k = k0)) as [->|Hne].
    + rewrite bool_decide_eq_true_2 by done. rewrite take_snoc, <-Hinv.
      unfold stat_of at 1. rewrite dict_get_record_eq. simpl.
      unfold record_stat. destruct is_dir; simpl; by case_bool_decide.
    + rewrite bool_decide_eq_false_2 by congruence. rewrite app_nil_r, <-Hinv.
      unfold stat_of. by rewrite dict_get_record_ne.
  - rewrite app_nil_r. apply Hinv.
Qed.

Lemma samples_inv_fold ls pre d :
  samples_inv pre d → samples_inv (pre ++ ls) (foldl step d ls).
Proof.
  revert pre d. induction ls as [|raw ls IH]; intros pre d Hinv; simpl.
  - by rewrite app_nil_r.
  - rewrite cons_middle, app_assoc. apply IH. by apply samples_inv_step.
Qed.

Lemma samples_inv_empty : samples_inv [] [].
Proof. done. Qed.

End samples.

(** C6: every key of the result holds at most 5 samples, and they are the
    first [min 5 n] of the [n] accepted lines routed to that key, trimmed
    (trailing separator kept), in input order. Samples are never evicted or
    replaced: whatever lines the loop goes on to process, the samples stored
    so far remain a prefix of the key's samples. *)
Theorem samples_are_first_five
    (text : string) (more : list string) (d d' : dict)
    (k : string) (st : DirectoryStat) :
  analyze_rsync_output text = Ok d →
  dict_get k d = Some st →
  analyze_lines d more = Ok d' →
  length (items st) ≤ 5
  ∧ length (items st) = min 5 (length (routed k (Str.readlines text)))
  ∧ items st = take 5 (routed k (Str.readlines text))
  ∧ items st `prefix_of` items (stat_of k d').
Proof.
  unfold analyze_rsync_output. rewrite !analyze_lines_fold.
  intros [= <-] Hst [= <-].
  pose proof (samples_inv_fold (Str.readlines text) [] [] samples_inv_empty k)
    as Hk.
  pose proof (samples_inv_fold more _ _
                (samples_inv_fold (Str.readlines text) [] [] samples_inv_empty) k)
    as Hk'.
  simpl in Hk, Hk'. unfold stat_of in Hk at 1. rewrite Hst in Hk. simpl in Hk.
  rewrite Hk', Hk. split_and!; [|by rewrite length_take|done|].
  - rewrite length_take. lia.
  - unfold routed. rewrite List.filter_app, fmap_app, take_app.
    by apply prefix_app_r.
Qed.

Lemma samples_are_first_five_witness :
  length (items (mkStat 7 0 ["p/q/1"; "p/q/2"; "p/q/3"; "p/q/4"; "p/q/5"])) ≤ 5
  ∧ length (items (mkStat 7 0 ["p/q/1"; "p/q/2"; "p/q/3"; "p/q/4"; "p/q/5"]))
    = min 5 (length (routed "p/q"
        (Str.readlines
           (Str.unlines ["p/q/1"; "p/q/2"; "p/q/3"; "p/q/4"; "p/q/5"; "p/q/6"; "p/q/7"]))))
  ∧ items (mkStat 7 0 ["p/q/1"; "p/q/2"; "p/q/3"; "p/q/4"; "p/q/5"])
    = take 5 (routed "p/q"
        (Str.readlines
           (Str.unlines ["p/q/1"; "p/q/2"; "p/q/3"; "p/q/4"; "p/q/5"; "p/q/6"; "p/q/7"])))
  ∧ items (mkStat 7 0 ["p/q/1"; "p/q/2"; "p/q/3"; "p/q/4"; "p/q/5"])
    `prefix_of`
    items (stat_of "p/q" [("p/q", mkStat 8 0 ["p/q/1"; "p/q/2"; "p/q/3"; "p/q/4"; "p/q/5"])]).
Proof.
  apply (samples_are_first_five
           (Str.unlines ["p/q/1"; "p/q/2"; "p/q/3"; "p/q/4"; "p/q/5"; "p/q/6"; "p/q/7"])
           ["p/q/8"]
           [("p/q", mkStat 7 0 ["p/q/1"; "p/q/2"; "p/q/3"; "p/q/4"; "p/q/5"])]
           [("p/q", mkStat 8 0 ["p/q/1"; "p/q/2"; "p/q/3"; "p/q/4"; "p/q/5"])]
           "p/q" (mkStat 7 0 ["p/q/1"; "p/q/2"; "p/q/3"; "p/q/4"; "p/q/5"]));
    vm_compute; reflexivity.
Defined.

(** ** Noise *)

Section noise.

Lemma rstrip_app_solid f p t :
  ends_solid f p = true → Str.rstrip f (p +:+ t) = p +:+ Str.rstrip f t.
Proof.
  induction p as [|a p IH]; [done|]. intros Hp.
  rewrite !append_cons. cbn [Str.rstrip]. destruct p as [|b p].
  - simpl in Hp. apply negb_true_iff in Hp. by rewrite Hp.
  - rewrite IH by done. rewrite append_cons. simpl. by rewrite andb_false_r.
Qed.

Lemma ends_solid_app f a m :
  ends_solid f m = true → ends_solid f (a +:+ m) = true.
Proof.
  intros Hm. induction a as [|c a IH]; [done|].
  rewrite append_cons. cbn [ends_solid]. fold (ends_solid f).
  destruct (a +:+ m) as [|x y]; [done|exact IH].
Qed.

Lemma lstrip_app_solid f a m :
  starts_solid f m = true → ∃ a', Str.lstrip f (a +:+ m) = a' +:+ m.
Proof.
  intros Hm. induction a as [|c a [a' IH]].
  - exists "". destruct m as [|x m]; [done|]. simpl in Hm.
    apply negb_true_iff in Hm. rewrite !append_nil_l. simpl. by rewrite Hm.
  - rewrite append_cons. simpl. destruct (f c).
    + by exists a'.
    + by exists (String c a).
Qed.

Lemma strip_begins p t :
  starts_solid Str.isspace p = true → ends_solid Str.isspace p = true →
  begins_with p (Str.strip (p +:+ t)).
Proof.
  intros Hs He. unfold Str.strip.
  destruct p as [|c p]; [done|]. simpl in Hs. apply negb_true_iff in Hs.
  rewrite append_cons. cbn [Str.lstrip]. rewrite Hs, <-append_cons.
  rewrite rstrip_app_solid by done. by eexists.
Qed.

Lemma strip_has_substring m s :
  starts_solid Str.isspace m = true → ends_solid Str.isspace m = true →
  has_substring m s → has_substring m (Str.strip s).
Proof.
  intros Hs He (a & b & ->). unfold Str.strip.
  destruct (lstrip_app_solid Str.isspace a (m +:+ b)) as [a' ->].
  { destruct m; [done|]. by rewrite append_cons. }
  rewrite <-append_assoc, rstrip_app_solid by (by apply ends_solid_app).
  rewrite append_assoc. by eexists _, _.
Qed.

(** Trimming keeps the noise markers. *)
Lemma noise_shaped_strip raw : noise_shaped raw → noise_shaped (Str.strip raw).
Proof.
  intros [(p & Hp & t & ->)|Hsub].
  - left. exists p. split; [done|].
    unfold noise_prefixes in Hp. apply strip_begins;
      repeat (apply elem_of_cons in Hp as [->|Hp]; [done|]);
      by apply elem_of_nil in Hp.
  - right. by apply strip_has_substring.
Qed.

Lemma noise_shaped_is_noise line : noise_shaped line → is_noise line = true.
Proof.
  unfold is_noise. intros [(p & Hp & Hb)|Hsub].
  - apply startswith_begins in Hb. unfold noise_prefixes in Hp.
    repeat (apply elem_of_cons in Hp as [->|Hp];
            [rewrite Hb; by rewrite ?orb_true_r|]).
    by apply elem_of_nil in Hp.
  - apply contains_has_substring in Hsub. rewrite Hsub.
    by rewrite ?orb_true_r.
Qed.

End noise.

(** C8: ["sent 1234 bytes  500.00 bytes/sec"] and ["rsync: some error"]
    leave the result as it is, and ["a/b/file.txt"] is counted as a file
    under ["a/b"]. In general a line that, as read or after trimming, begins
    with ["rsync:"], ["rsync error"], ["sent"], ["total size"],
    ["receiving"] or ["sending"], or contains ["bytes/sec"], leaves the
    result as it is, whatever its path reading would be. *)
Theorem noise_lines_discarded :
  (∀ d, process_line d "sent 1234 bytes  500.00 bytes/sec" = Ok d)
  ∧ (∀ d, process_line d "rsync: some error" = Ok d)
  ∧ (∀ d, ∃ d', process_line d "a/b/file.txt" = Ok d'
               ∧ counted_under false "a/b" d d')
  ∧ (∀ d raw,
       noise_shaped raw ∨ noise_shaped (Str.strip raw) →
       classify raw = None ∧ process_line d raw = Ok d).
Proof.
  split_and!.
  - intros d. rewrite process_line_step. by rewrite step_discarded.
  - intros d. rewrite process_line_step. by rewrite step_discarded.
  - counted_example false "a/b".
  - intros d raw Hshape.
    assert (classify raw = None) as Hc.
    { unfold classify. rewrite noise_shaped_is_noise; [done|].
      destruct Hshape; [by apply noise_shaped_strip|done]. }
    split; [done|]. rewrite process_line_step. by rewrite step_discarded.
Qed.

Lemma noise_lines_discarded_witness :
  classify "  total size is 4,096  speedup is 1.00" = None
  ∧ process_line [("a", mkStat 1 0 ["a"])]
      "  total size is 4,096  speedup is 1.00"
    = Ok [("a", mkStat 1 0 ["a"])].
Proof.
  apply (proj2 (proj2 (proj2 noise_lines_discarded))).
  right. left. exists "total size". split.
  - unfold noise_prefixes. set_solver.
  - by exists " is 4,096  speedup is 1.00".
Defined.

(** ** Keys of the result *)

Section keys.

Lemma keys_step d raw k :
  k ∈ (step d raw).*1 → k ∈ d.*1 ∨ (∃ c, classify raw = Some (c, k)).
Proof.
  unfold step. destruct (classify raw) as [[is_dir k0]|]; [|by left].
  intros [->|?]%elem_of_keys_record; [right; by eexists|by left].
Qed.

Lemma no_empty_key_fold ls d : "" ∉ d.*1 → "" ∉ (foldl step d ls).*1.
Proof.
  revert d. induction ls as [|raw ls IH]; intros d Hd; [done|].
  simpl. apply IH. intros [?|[c Hc]]%keys_step; [done|].
  by apply classify_key_nonempty in Hc.
Qed.

Lemma NoDup_keys_fold ls d : NoDup d.*1 → NoDup (foldl step d ls).*1.
Proof.
  revert d. induction ls as [|raw ls IH]; intros d Hd; [done|].
  simpl. apply IH. unfold step.
  destruct (classify raw) as [[is_dir k0]|]; [|done].
  by apply NoDup_keys_record.
Qed.

End keys.

(** ** The report *)

Section report.

Implicit Types (d : dict).

Lemma sorted_keys_Sorted d : StronglySorted String.le (sorted_keys d).
Proof. apply StronglySorted_merge_sort; apply _. Qed.

Lemma sorted_keys_perm d : sorted_keys d ≡ₚ d.*1.
Proof. apply merge_sort_Permutation. Qed.

Lemma sorted_keys_proper d1 d2 : d1 ≡ₚ d2 → sorted_keys d1 = sorted_keys d2.
Proof.
  intros Hp. apply (StronglySorted_unique String.le);
    [apply sorted_keys_Sorted..|].
  rewrite !sorted_keys_perm. by rewrite Hp.
Qed.

Lemma StronglySorted_strict (l : list string) :
  NoDup l → StronglySorted String.le l → StronglySorted (strict String.le) l.
Proof.
  intros Hnd Hs. induction Hs as [|x l Hs IH Hall]; [constructor|].
  apply NoDup_cons in Hnd as [Hx Hnd]. constructor; [by apply IH|].
  apply Forall_forall. intros y Hy. split.
  - by eapply Forall_forall in Hall.
  - intros Hyx. apply Hx.
    assert (x = y) as -> by (apply (anti_symm String.le);
      [by eapply Forall_forall in Hall|done]).
    done.
Qed.

Lemma section_lines_ext d1 d2 k :
  dict_get k d1 = dict_get k d2 → section_lines d1 k = section_lines d2 k.
Proof. unfold section_lines. by intros ->. Qed.

Lemma summary_lines_proper d1 d2 :
  d1 ≡ₚ d2 → summary_lines d1 = summary_lines d2.
Proof.
  intros Hp. unfold summary_lines, total_files, total_dirs.
  by rewrite !Hp.
Qed.

Lemma format_report_proper d1 d2 source destination :
  NoDup d1.*1 → NoDup d2.*1 →
  (list_to_map d1 : gmap string DirectoryStat) = list_to_map d2 →
  format_report d1 source destination = format_report d2 source destination.
Proof.
  intros Hn1 Hn2 Hmap.
  assert (d1 ≡ₚ d2) as Hp by (by eapply list_to_map_inj).
  unfold format_report, report_lines.
  rewrite (sorted_keys_proper d1 d2 Hp), (summary_lines_proper d1 d2 Hp).
  do 4 f_equal. apply list_fmap_ext. intros _ k _.
  apply section_lines_ext. by rewrite !dict_get_list_to_map, Hmap.
Qed.

End report.

(** C7: the report is a function of the aggregation result, read as a map,
    and of the two labels: two dicts with the same key-to-stat mapping give
    the same text, whatever their insertion orders. The text is the header,
    one section per key and the summary, joined by newlines; the sections
    follow the keys in strictly ascending lexicographic order, each key
    once. A section shows the key followed by the separator, the file
    count, the subdirectory count, their sum, and, when samples are stored,
    the first 3 of them at most. *)
Theorem report_deterministic
    (d1 d2 : dict) (source destination : string) :
  NoDup d1.*1 → NoDup d2.*1 →
  (list_to_map d1 : gmap string DirectoryStat) = list_to_map d2 →
  format_report d1 source destination = format_report d2 source destination
  ∧ format_report d1 source destination
    = Str.join (String Str.LF "")
        (header_lines source destination
         ++ mjoin (section_lines d1 <$> sorted_keys d1)
         ++ summary_lines d1)
  ∧ StronglySorted (strict String.le) (sorted_keys d1)
  ∧ sorted_keys d1 ≡ₚ d1.*1
  ∧ ∀ k st, dict_get k d1 = Some st →
      ∃ shown,
        section_lines d1 k
        = [ "Directory: " +:+ k +:+ "/";
            "  - Files: " +:+ pretty (files st);
            "  - Subdirectories: " +:+ pretty (dirs st);
            "  - Total items: " +:+ pretty (files st + dirs st) ]
          ++ (if decide (items st = []) then []
              else "  - Sample items:" :: ((λ item, "      " +:+ item) <$> shown))
          ++ [""]
        ∧ shown = take 3 (items st)
        ∧ length shown ≤ 3.
Proof.
  intros Hn1 Hn2 Hmap. split_and!.
  - by apply format_report_proper.
  - done.
  - apply StronglySorted_strict; [|apply sorted_keys_Sorted].
    by rewrite sorted_keys_perm.
  - apply sorted_keys_perm.
  - intros k st Hst. exists (take 3 (items st)). split_and!; [|done|].
    + unfold section_lines. rewrite Hst. simpl.
      do 4 f_equal. by destruct (items st).
    + rewrite length_take. lia.
Qed.

Lemma report_deterministic_witness :
  format_report
    [("b", mkStat 1 0 ["b"]); ("a/x", mkStat 0 2 ["a/x/"; "a/x/y/"])] "/s" "/t"
  = format_report
      [("a/x", mkStat 0 2 ["a/x/"; "a/x/y/"]); ("b", mkStat 1 0 ["b"])] "/s" "/t".
Proof.
  apply (report_deterministic
           [("b", mkStat 1 0 ["b"]); ("a/x", mkStat 0 2 ["a/x/"; "a/x/y/"])]
           [("a/x", mkStat 0 2 ["a/x/"; "a/x/y/"]); ("b", mkStat 1 0 ["b"])]
           "/s" "/t").
  - apply (bool_decide_unpack _). vm_compute. exact I.
  - apply (bool_decide_unpack _). vm_compute. exact I.
  - apply map_eq. intros k. rewrite <-!dict_get_list_to_map. simpl.
    repeat case_decide; congruence.
Defined.


(** ** Per-key counts *)

Section per_key.

Implicit Types (d : dict) (k raw : string) (ls : list string).

Lemma routed_class_cons c k raw ls :
  length (routed_class c k (raw :: ls))
  = (if decide (classify raw = Some (c, k)) then 1 else 0)
    + length (routed_class c k ls).
Proof.
  unfold routed_class. rewrite filter_cons. by case_decide.
Qed.

Lemma counts_step d raw k :
  files (stat_of k (step d raw))
  = files (stat_of k d)
    + (if decide (classify raw = Some (false, k)) then 1 else 0)
  ∧ dirs (stat_of k (step d raw))
    = dirs (stat_of k d)
      + (if decide (classify raw = Some (true, k)) then 1 else 0).
Proof.
  unfold step. destruct (classify raw) as [[c k0]|] eqn:Hc.
  - destruct (record_line_counted c k0 (Str.strip raw) d) as (Hf & Hd & Ho).
    destruct (decide (k = k0)) as [->|Hne].
    + rewrite Hf, Hd. destruct c; repeat case_decide; try congruence; lia.
    + unfold stat_of. rewrite (Ho k Hne).
      repeat case_decide; try congruence; lia.
  - repeat case_decide; try congruence; lia.
Qed.

Lemma counts_fold ls d k :
  files (stat_of k (foldl step d ls))
  = files (stat_of k d) + length (routed_class false k ls)
  ∧ dirs (stat_of k (foldl step d ls))
    = dirs (stat_of k d) + length (routed_class true k ls).
Proof.
  revert d. induction ls as [|raw ls IH]; intros d; simpl.
  - lia.
  - destruct (IH (step d raw)) as [-> ->].
    destruct (counts_step d raw k) as [-> ->].
    rewrite !routed_class_cons. lia.
Qed.

Lemma routed_length k ls :
  length (routed k ls)
  = length (routed_class false k ls) + length (routed_class true k ls).
Proof.
  unfold routed. rewrite length_fmap.
  induction ls as [|raw ls IH].
  - done.
  - rewrite !routed_class_cons. cbn [List.filter].
    destruct (classify raw) as [[[] k0]|] eqn:Hc; simpl; [| |exact IH].
    all: destruct (decide (k0 = k)) as [->|Hne];
      [rewrite bool_decide_eq_true_2, decide_True by done
      |rewrite bool_decide_eq_false_2, decide_False by congruence];
      simpl; lia.
Qed.

Lemma keys_step_iff d raw k :
  k ∈ (step d raw).*1 ↔ k ∈ d.*1 ∨ snd <$> classify raw = Some k.
Proof.
  unfold step. destruct (classify raw) as [[c k0]|]; simpl.
  - rewrite elem_of_keys_record.
    split; [intros [->|?]; auto|intros [?|[= ->]]; auto].
  - split; [auto|intros [?|?]; done].
Qed.

Lemma keys_fold_iff ls d k :
  k ∈ (foldl step d ls).*1 ↔ k ∈ d.*1 ∨ routed k ls ≠ [].
Proof.
  revert d. induction ls as [|raw ls IH]; intros d; simpl.
  - split; [auto|intros [?|?]; done].
  - rewrite IH, keys_step_iff. unfold routed. cbn [List.filter].
    case_bool_decide as Hk; simpl.
    + split; [intros _; by right|intros _; left; by right].
    + tauto.
Qed.

End per_key.

(** X1: in the result of every text, the file counter of a key is the
    number of lines accepted as files under that key and its directory
    counter the number of lines accepted as directories under it; a key
    that no line is routed to reads as zero on both. *)
Theorem per_key_counts (text k : string) :
  ∃ d, analyze_rsync_output text = Ok d
       ∧ files (stat_of k d)
         = length (routed_class false k (Str.readlines text))
       ∧ dirs (stat_of k d)
         = length (routed_class true k (Str.readlines text)).
Proof.
  unfold analyze_rsync_output. rewrite analyze_lines_fold.
  eexists; split; [done|]. apply (counts_fold _ [] k).
Qed.

(** X2: in the result of every text, a string is a key exactly when some
    accepted line is routed to it, and every key holds [min 5 (files +
    dirs)] samples with [files + dirs] at least one: no key of a result is
    without a sample, so every section of its report lists samples. *)
Theorem keys_have_samples (text k : string) :
  ∃ d, analyze_rsync_output text = Ok d
       ∧ (k ∈ d.*1 ↔ routed k (Str.readlines text) ≠ [])
       ∧ (k ∈ d.*1 ↔ 1 ≤ files (stat_of k d) + dirs (stat_of k d))
       ∧ length (items (stat_of k d))
         = min 5 (files (stat_of k d) + dirs (stat_of k d)).
Proof.
  unfold analyze_rsync_output. rewrite analyze_lines_fold.
  eexists; split; [done|].
  destruct (counts_fold (Str.readlines text) [] k) as [Hf Hd].
  pose proof (samples_inv_fold (Str.readlines text) [] [] samples_inv_empty k)
    as Hi.
  pose proof (keys_fold_iff (Str.readlines text) [] k) as Hk.
  pose proof (routed_length k (Str.readlines text)) as Hl.
  simpl in Hi, Hf, Hd. rewrite Hf, Hd, Hi, length_take, Hl.
  split_and!; [|..|done].
  - rewrite Hk. split; [intros [?%elem_of_nil|?]|]; auto.
  - rewrite Hk, <-Hl. destruct (routed k _); simpl.
    + split; [intros [?%elem_of_nil|?]; done|lia].
    + split; [lia|by right].
Qed.

(** ** What the loop keeps *)

Section monotone.

Implicit Types (d : dict) (k raw : string) (ls : list string).

Lemma keys_update_prefix f k d : d.*1 `prefix_of` (dd_update f k d).*1.
Proof.
  rewrite keys_update. case_decide; [done|]. by apply prefix_app_r.
Qed.

Lemma keys_step_prefix d raw : d.*1 `prefix_of` (step d raw).*1.
Proof.
  unfold step. destruct (classify raw) as [[c k0]|]; [|done].
  rewrite record_line_unfold. cbv zeta. case_bool_decide.
  - etrans; apply keys_update_prefix.
  - apply keys_update_prefix.
Qed.

Lemma items_step_prefix d raw k :
  items (stat_of k d) `prefix_of` items (stat_of k (step d raw)).
Proof.
  unfold step. destruct (classify raw) as [[c k0]|]; [|done].
  destruct (decide (k = k0)) as [->|Hne].
  - unfold stat_of at 2. rewrite dict_get_record_eq. simpl.
    unfold record_stat. destruct c; simpl; case_bool_decide; simpl;
      try done; by apply prefix_app_r.
  - unfold stat_of. by rewrite dict_get_record_ne.
Qed.

Lemma loop_monotone ls d :
  d.*1 `prefix_of` (foldl step d ls).*1
  ∧ ∀ k, files (stat_of k d) ≤ files (stat_of k (foldl step d ls))
         ∧ dirs (stat_of k d) ≤ dirs (stat_of k (foldl step d ls))
         ∧ items (stat_of k d) `prefix_of` items (stat_of k (foldl step d ls)).
Proof.
  revert d. induction ls as [|raw ls IH]; intros d; simpl; [done|].
  destruct (IH (step d raw)) as [Hkeys Hk]. split.
  - etrans; [apply keys_step_prefix|done].
  - intros k. destruct (Hk k) as (Hf & Hd & Hi).
    destruct (counts_step d raw k) as [Hf' Hd'].
    split_and!; [lia..|]. etrans; [apply items_step_prefix|done].
Qed.

End monotone.

(** X3: the loop never takes anything back. From any state and on any
    lines it returns a result in which the keys already present come first,
    in their order, no counter of any key is lower than before, and the
    samples of every key begin with the samples it had. *)
Theorem loop_never_takes_back (d : dict) (ls : list string) :
  ∃ d', analyze_lines d ls = Ok d'
        ∧ d.*1 `prefix_of` d'.*1
        ∧ ∀ k, files (stat_of k d) ≤ files (stat_of k d')
               ∧ dirs (stat_of k d) ≤ dirs (stat_of k d')
               ∧ items (stat_of k d) `prefix_of` items (stat_of k d').
Proof.
  rewrite analyze_lines_fold. eexists; split; [done|]. apply loop_monotone.
Qed.

(** ** The order of the lines *)

Section line_order.

Lemma routed_class_perm c k (ls1 ls2 : list string) :
  ls1 ≡ₚ ls2 → length (routed_class c k ls1) = length (routed_class c k ls2).
Proof. unfold routed_class. by intros ->. Qed.

Lemma routed_nonempty_perm k (ls1 ls2 : list string) :
  ls1 ≡ₚ ls2 → routed k ls1 ≠ [] → routed k ls2 ≠ [].
Proof.
  intros Hp H1 H2. apply H1. apply length_zero_iff_nil.
  apply (f_equal length) in H2. simpl in H2.
  rewrite routed_length in *.
  by rewrite (routed_class_perm false k _ _ Hp), (routed_class_perm true k _ _ Hp).
Qed.

End line_order.

(** X4: the order of the input lines decides only which samples are kept.
    Two inputs with the same lines in different orders give the same keys,
    hence the same sections in the same order in the report, and for every
    key the same file and directory counts. *)
Theorem line_order_only_moves_samples (ls1 ls2 : list string) :
  ls1 ≡ₚ ls2 →
  ∃ d1 d2, analyze_lines [] ls1 = Ok d1
           ∧ analyze_lines [] ls2 = Ok d2
           ∧ d1.*1 ≡ₚ d2.*1
           ∧ sorted_keys d1 = sorted_keys d2
           ∧ ∀ k, files (stat_of k d1) = files (stat_of k d2)
                  ∧ dirs (stat_of k d1) = dirs (stat_of k d2).
Proof.
  intros Hp. rewrite !analyze_lines_fold. eexists _, _.
  split; [done|]. split; [done|].
  assert ((foldl step [] ls1).*1 ≡ₚ (foldl step [] ls2).*1) as Hkeys.
  { apply NoDup_Permutation; [by apply NoDup_keys_fold, NoDup_nil..|].
    intros k. rewrite !keys_fold_iff.
    split; (intros [?%elem_of_nil|?]; [done|]); right.
    - by apply (routed_nonempty_perm k ls1 ls2).
    - by apply (routed_nonempty_perm k ls2 ls1). }
  split_and!; [done| |].
  - apply (StronglySorted_unique String.le); [apply sorted_keys_Sorted..|].
    by rewrite !sorted_keys_perm.
  - intros k.
    destruct (counts_fold ls1 [] k) as [-> ->].
    destruct (counts_fold ls2 [] k) as [-> ->].
    by rewrite (routed_class_perm false k _ _ Hp),
               (routed_class_perm true k _ _ Hp).
Qed.

Lemma line_order_only_moves_samples_witness :
  ∃ d1 d2, analyze_lines [] ["a/b/c"; "a/b/"; "x"] = Ok d1
           ∧ analyze_lines [] ["x"; "a/b/c"; "a/b/"] = Ok d2
           ∧ d1.*1 ≡ₚ d2.*1
           ∧ sorted_keys d1 = sorted_keys d2
           ∧ ∀ k, files (stat_of k d1) = files (stat_of k d2)
                  ∧ dirs (stat_of k d1) = dirs (stat_of k d2).
Proof.
  apply (line_order_only_moves_samples ["a/b/c"; "a/b/"; "x"]
           ["x"; "a/b/c"; "a/b/"]).
  symmetry. apply (Permutation_cons_append ["a/b/c"; "a/b/"] "x").
Defined.

(** ** Why a line is dropped *)

Section dropped.

Lemma is_noise_shape line :
  is_noise line = true ↔ line = "" ∨ noise_shaped line.
Proof.
  split.
  - unfold is_noise. rewrite !orb_true_iff.
    intros [[[[[[[He|H]|H]|H]|H]|H]|H]|H].
    + left. by destruct line.
    + right. left. exists "rsync:". split; [set_solver|by apply startswith_begins].
    + right. left. exists "sent". split; [set_solver|by apply startswith_begins].
    + right. left. exists "total size".
      split; [set_solver|by apply startswith_begins].
    + right. left. exists "rsync error".
      split; [set_solver|by apply startswith_begins].
    + right. right. by apply contains_has_substring.
    + right. left. exists "receiving".
      split; [set_solver|by apply startswith_begins].
    + right. left. exists "sending".
      split; [set_solver|by apply startswith_begins].
  - intros [->|Hs]; [done|by apply noise_shaped_is_noise].
Qed.

End dropped.

(** ** Lines without a segment *)

Section segmentless.

Lemma filter_nil_Forall {A} (f : A → bool) (l : list A) :
  List.filter f l = [] ↔ Forall (λ x, f x = false) l.
Proof.
  induction l as [|x l IH]; simpl; [by split; [constructor|]|].
  destruct (f x) eqn:Hx.
  - split; [done|]. intros [? _]%Forall_cons. congruence.
  - rewrite IH. split; [by constructor|by intros [_ ?]%Forall_cons].
Qed.

Lemma keep_part_false x :
  PosixPath.keep_part x = false ↔ x = "" ∨ x = ".".
Proof.
  unfold PosixPath.keep_part. destruct x as [|c x]; simpl; [by split; [left|]|].
  case_bool_decide as H; simpl.
  - split; [by right|done].
  - split; [done|]. by intros [?|?].
Qed.

Lemma parts_nil p :
  PosixPath.parts p = []
  ↔ p = ""
    ∨ (Str.startswith "/" p = false
       ∧ Forall (λ x, x = "" ∨ x = ".") (Str.split Str.SEP p)).
Proof.
  destruct p as [|c s]; [by split; [left|]|].
  destruct (decide (c = "/"%char)) as [->|Hne].
  - destruct (parts_absolute s) as (root & tail & -> & _).
    split; [done|]. by intros [?|[? _]].
  - unfold PosixPath.parts, PosixPath.parse_path, PosixPath.splitroot.
    cbn [Str.is_empty Str.take].
    rewrite (bool_decide_eq_false_2 (String c "" = "/")) by congruence.
    cbn [negb Str.is_empty]. rewrite filter_nil_Forall. split.
    + intros H. right. split.
      * simpl. by rewrite bool_decide_eq_false_2 by congruence.
      * eapply Forall_impl; [done|]. intros x. apply keep_part_false.
    + intros [?|[_ H]]; [done|].
      eapply Forall_impl; [done|]. intros x. apply keep_part_false.
Qed.

Lemma rstrip_nil_all f s : Str.rstrip f s = "" ↔ all_chars f s = true.
Proof.
  induction s as [|c s IH]; simpl; [done|].
  destruct (f c); simpl; [|done].
  rewrite <-IH. by destruct (Str.rstrip f s).
Qed.

End segmentless.

(** X6: a trimmed line has no segment, and is dropped for it, exactly when
    the removal of its trailing separators leaves nothing, or leaves a
    relative path all of whose components are empty or ["."]. So a line
    made only of separators has no segment, whatever their number, while an
    absolute path with any other character always has one. *)
Theorem segmentless_lines (line : string) :
  (segments line = []
   ↔ Str.rstrip (Str.is_char Str.SEP) line = ""
     ∨ (Str.startswith "/" (Str.rstrip (Str.is_char Str.SEP) line) = false
        ∧ Forall (λ x, x = "" ∨ x = ".")
            (Str.split Str.SEP (Str.rstrip (Str.is_char Str.SEP) line))))
  ∧ (Str.rstrip (Str.is_char Str.SEP) line = ""
     ↔ all_chars (Str.is_char Str.SEP) line = true)
  ∧ (Str.startswith "/" line = true →
     all_chars (Str.is_char Str.SEP) line = false →
     segments line ≠ []).
Proof.
  split_and!.
  - apply parts_nil.
  - apply rstrip_nil_all.
  - intros Hs Hall. unfold segments.
    destruct line as [|c line]; [done|]. simpl in Hs.
    apply andb_true_iff in Hs as [<-%bool_decide_eq_true _].
    destruct (rstrip_cons (Str.is_char Str.SEP) "/" line) as [He|[s' He]].
    + apply rstrip_nil_all in He. congruence.
    + rewrite He. by destruct (parts_absolute s') as (root & tail & -> & _).
Qed.

Lemma segmentless_lines_witness : segments "/./" ≠ [].
Proof.
  apply (proj2 (proj2 (segmentless_lines "/./"))); reflexivity.
Defined.

(** ** Whitespace around a line *)

Section whitespace.

Lemma rstrip_snoc f s c :
  f c = true → Str.rstrip f (s +:+ String c "") = Str.rstrip f s.
Proof.
  intros Hc. induction s as [|a s IH].
  - rewrite append_nil_l. simpl. by rewrite Hc.
  - rewrite append_cons. cbn [Str.rstrip]. by rewrite IH.
Qed.

Lemma strip_snoc s c :
  Str.isspace c = true → Str.strip (s +:+ String c "") = Str.strip s.
Proof.
  intros Hc. unfold Str.strip. induction s as [|a s IH].
  - rewrite append_nil_l. simpl. by rewrite Hc.
  - rewrite append_cons. cbn [Str.lstrip]. destruct (Str.isspace a); [done|].
    rewrite <-append_cons. by apply rstrip_snoc.
Qed.

Lemma append_snoc s c w : s +:+ String c w = (s +:+ String c "") +:+ w.
Proof. by rewrite append_assoc. Qed.

Lemma strip_app_r s w :
  all_chars Str.isspace w = true → Str.strip (s +:+ w) = Str.strip s.
Proof.
  revert s. induction w as [|c w IH]; intros s Hw.
  - f_equal. induction s as [|a s IHs]; [done|].
    rewrite append_cons. by rewrite IHs.
  - simpl in Hw. apply andb_true_iff in Hw as [Hc Hw].
    rewrite append_snoc, IH by done. by apply strip_snoc.
Qed.

Lemma strip_app_l w s :
  all_chars Str.isspace w = true → Str.strip (w +:+ s) = Str.strip s.
Proof.
  intros Hw. unfold Str.strip. f_equal. induction w as [|c w IH]; [done|].
  simpl in Hw. apply andb_true_iff in Hw as [Hc Hw].
  rewrite append_cons. simpl. rewrite Hc. by apply IH.
Qed.

Lemma rstrip_idem f s : Str.rstrip f (Str.rstrip f s) = Str.rstrip f s.
Proof.
  induction s as [|c s IH]; [done|]. cbn [Str.rstrip].
  destruct (f c && Str.is_empty (Str.rstrip f s)) eqn:Hc; [done|].
  cbn [Str.rstrip]. by rewrite IH, Hc.
Qed.

Lemma lstrip_rstrip_lstrip f s :
  Str.lstrip f (Str.rstrip f (Str.lstrip f s)) = Str.rstrip f (Str.lstrip f s).
Proof.
  induction s as [|c s IH]; [done|]. cbn [Str.lstrip].
  destruct (f c) eqn:Hc; [done|].
  cbn [Str.rstrip]. rewrite Hc. simpl. by rewrite Hc.
Qed.

Lemma strip_idem s : Str.strip (Str.strip s) = Str.strip s.
Proof.
  unfold Str.strip. by rewrite lstrip_rstrip_lstrip, rstrip_idem.
Qed.

Lemma process_line_strip_eq d r1 r2 :
  Str.strip r1 = Str.strip r2 → process_line d r1 = process_line d r2.
Proof. unfold process_line. by intros ->. Qed.

End whitespace.

(** X7: whitespace around a line never matters. A line wrapped in any
    leading and trailing whitespace has the same effect on every state as
    the line itself, and as its trimmed text; trimming a trimmed text
    changes nothing. *)
Theorem surrounding_whitespace_ignored (d : dict) (raw w1 w2 : string) :
  all_chars Str.isspace w1 = true →
  all_chars Str.isspace w2 = true →
  process_line d (w1 +:+ raw +:+ w2) = process_line d raw
  ∧ process_line d (Str.strip raw) = process_line d raw
  ∧ Str.strip (Str.strip raw) = Str.strip raw.
Proof.
  intros H1 H2. split_and!.
  - apply process_line_strip_eq. by rewrite strip_app_l, strip_app_r.
  - apply process_line_strip_eq, strip_idem.
  - apply strip_idem.
Qed.

Lemma surrounding_whitespace_ignored_witness :
  process_line [] ("  " +:+ "a/b c/d" +:+ " ") = process_line [] "a/b c/d"
  ∧ process_line [] (Str.strip "a/b c/d") = process_line [] "a/b c/d"
  ∧ Str.strip (Str.strip "a/b c/d") = Str.strip "a/b c/d".
Proof.
  apply (surrounding_whitespace_ignored [] "a/b c/d" "  " " "); reflexivity.
Defined.

(** ** Line ends *)

Section line_end_facts.

Implicit Types (l rest eol : string) (ls : list string).

Lemma readlines_clean_app l rest :
  no_newline l = true →
  Str.readlines (l +:+ rest)
  = match Str.readlines rest with
    | [] => if Str.is_empty l then [] else [l]
    | x :: xs => (l +:+ x) :: xs
    end.
Proof.
  induction l as [|c l IH]; intros Hl.
  - rewrite append_nil_l. by destruct (Str.readlines rest).
  - simpl in Hl. apply andb_true_iff in Hl as [Hc Hl].
    apply andb_true_iff in Hc as [Hlf Hcr].
    apply negb_true_iff in Hlf, Hcr.
    rewrite append_cons. cbn [Str.readlines]. rewrite Hlf, Hcr, IH by done.
    destruct (Str.readlines rest); [by destruct l|done].
Qed.

Lemma readlines_eol eol rest :
  eol ∈ line_ends →
  (eol = String Str.CR "" → head_not_LF rest = true) →
  Str.readlines (eol +:+ rest) = String Str.LF "" :: Str.readlines rest.
Proof.
  unfold line_ends. intros Hin Hhead.
  repeat (apply elem_of_cons in Hin as [->|Hin]); [done|done| |].
  - specialize (Hhead eq_refl). rewrite append_cons, append_nil_l.
    destruct rest as [|c rest]; [done|]. simpl in Hhead.
    apply negb_true_iff in Hhead. cbn [Str.readlines].
    rewrite (bool_decide_eq_false_2 (Str.CR = Str.LF)) by done.
    rewrite (bool_decide_eq_true_2 (Str.CR = Str.CR)) by done.
    by rewrite Hhead.
  - by apply elem_of_nil in Hin.
Qed.

Lemma head_not_LF_app l rest :
  no_newline l = true → head_not_LF rest = true → head_not_LF (l +:+ rest) = true.
Proof.
  intros Hl Hr. destruct l as [|c l]; [done|]. simpl in *.
  apply andb_true_iff in Hl as [Hc _]. by apply andb_true_iff in Hc as [-> _].
Qed.

Lemma head_not_LF_unlines eol ls :
  eol ∈ line_ends → Forall (λ l, no_newline l = true) ls →
  eol = String Str.CR "" → head_not_LF (unlines_with eol ls) = true.
Proof.
  intros _ Hls ->. destruct Hls as [|l ls Hl _]; [done|].
  simpl. by apply head_not_LF_app.
Qed.

Lemma readlines_unlines_with eol ls :
  eol ∈ line_ends → Forall (λ l, no_newline l = true) ls →
  Str.readlines (unlines_with eol ls) = (λ l, l +:+ String Str.LF "") <$> ls.
Proof.
  intros Heol Hls. induction Hls as [|l ls Hl Hls IH]; [done|].
  cbn [unlines_with foldr]. fold (unlines_with eol ls).
  rewrite readlines_clean_app by done.
  rewrite readlines_eol by eauto using head_not_LF_unlines.
  by rewrite IH.
Qed.

Lemma step_strip_eq d r1 r2 : Str.strip r1 = Str.strip r2 → step d r1 = step d r2.
Proof. unfold step, classify. by intros ->. Qed.

Lemma foldl_step_fmap (f : string → string) ls d :
  (∀ l, Str.strip (f l) = Str.strip l) →
  foldl step d (f <$> ls) = foldl step d ls.
Proof.
  intros Hf. revert d. induction ls as [|l ls IH]; intros d; [done|].
  simpl. by rewrite IH, (step_strip_eq d (f l) l).
Qed.

End line_end_facts.

(** X8: Unix, DOS and old Mac line ends give the same aggregation. For
    lines that hold no line end themselves, a file that ends every line
    with ["\n"], every line with ["\r\n"] or every line with ["\r"] is read
    back as these lines, each ended by ["\n"], and its result is the one of
    the loop run on the bare lines. *)
Theorem line_ends_do_not_matter (eol : string) (ls : list string) :
  eol ∈ line_ends →
  Forall (λ l, no_newline l = true) ls →
  Str.readlines (unlines_with eol ls) = (λ l, l +:+ String Str.LF "") <$> ls
  ∧ analyze_rsync_output (unlines_with eol ls) = analyze_lines [] ls.
Proof.
  intros Heol Hls. split; [by apply readlines_unlines_with|].
  unfold analyze_rsync_output.
  rewrite readlines_unlines_with, !analyze_lines_fold by done.
  f_equal. apply foldl_step_fmap. intros l. by apply strip_snoc.
Qed.

Lemma line_ends_do_not_matter_witness :
  Str.readlines
    (unlines_with (String Str.CR "") ["docs/"; ""; "docs/a b.txt"])
  = (λ l, l +:+ String Str.LF "") <$> ["docs/"; ""; "docs/a b.txt"]
  ∧ analyze_rsync_output
      (unlines_with (String Str.CR "") ["docs/"; ""; "docs/a b.txt"])
    = analyze_lines [] ["docs/"; ""; "docs/a b.txt"].
Proof.
  apply (line_ends_do_not_matter (String Str.CR "")
           ["docs/"; ""; "docs/a b.txt"]).
  - unfold line_ends. set_solver.
  - repeat constructor.
Defined.

(** ** Paths as strings *)

Section path_str_facts.

Implicit Types (x s : string) (tail : list string).

Lemma split_snoc_free x rest :
  all_chars (λ c, negb (Str.is_char Str.SEP c)) x = true →
  Str.split Str.SEP (x +:+ rest)
  = match Str.split Str.SEP rest with
    | [] => [x]
    | w :: ws => (x +:+ w) :: ws
    end.
Proof.
  induction x as [|c x IH]; intros Hx.
  - rewrite append_nil_l. destruct rest; simpl; [done|].
    by destruct (bool_decide _), (Str.split _ _).
  - simpl in Hx. apply andb_true_iff in Hx as [Hc Hx].
    apply negb_true_iff in Hc. unfold Str.is_char in Hc.
    rewrite append_cons. cbn [Str.split]. rewrite Hc, IH by done.
    by destruct (Str.split Str.SEP rest).
Qed.

Lemma append_nil_r x : x +:+ "" = x.
Proof. induction x as [|c x IH]; [done|]. rewrite append_cons. by f_equal. Qed.

Lemma join_cons2 sep x y (l : list string) :
  Str.join sep (x :: y :: l) = x +:+ sep +:+ Str.join sep (y :: l).
Proof. done. Qed.

Lemma split_join tail :
  Forall (λ x, good_part x = true) tail → tail ≠ [] →
  Str.split Str.SEP (Str.join "/" tail) = tail.
Proof.
  induction 1 as [|x tl Hx Htl IH]; [done|]. intros _.
  apply andb_true_iff in Hx as [Hx _].
  destruct tl as [|y tl].
  - change (Str.join "/" [x]) with x. rewrite <-(append_nil_r x) at 1.
    rewrite split_snoc_free by done. simpl. by rewrite append_nil_r.
  - rewrite join_cons2, split_snoc_free by done.
    rewrite append_cons, append_nil_l.
    assert (Str.split Str.SEP (String "/" (Str.join "/" (y :: tl)))
            = "" :: Str.split Str.SEP (Str.join "/" (y :: tl))) as -> by done.
    by rewrite IH, append_nil_r.
Qed.

Lemma split_parts_free s :
  Forall (λ x, all_chars (λ c, negb (Str.is_char Str.SEP c)) x = true)
    (Str.split Str.SEP s).
Proof.
  induction s as [|c s IH]; simpl; [by repeat constructor|].
  case_bool_decide as Hc; [by constructor|].
  destruct (Str.split Str.SEP s) as [|w ws]; [repeat constructor|].
  - simpl. unfold Str.is_char. by rewrite bool_decide_eq_false_2.
  - apply Forall_cons in IH as [Hw Hws]. constructor; [|done].
    simpl. unfold Str.is_char at 1. by rewrite bool_decide_eq_false_2.
Qed.

Lemma filter_keep_good l :
  Forall (λ x, all_chars (λ c, negb (Str.is_char Str.SEP c)) x = true) l →
  Forall (λ x, good_part x = true) (List.filter PosixPath.keep_part l).
Proof.
  induction 1 as [|x l Hx Hl IH]; simpl; [constructor|].
  destruct (PosixPath.keep_part x) eqn:Hk; [|done].
  constructor; [|done]. unfold good_part. by rewrite Hx, Hk.
Qed.

Lemma filter_good_id tail :
  Forall (λ x, good_part x = true) tail →
  List.filter PosixPath.keep_part tail = tail.
Proof.
  induction 1 as [|x l Hx Hl IH]; simpl; [done|].
  apply andb_true_iff in Hx as [_ ->]. by rewrite IH.
Qed.

Lemma parse_path_shape s root tail :
  PosixPath.parse_path s = (root, tail) →
  (root = "" ∨ root = "/" ∨ root = "//")
  ∧ Forall (λ x, good_part x = true) tail.
Proof.
  unfold PosixPath.parse_path. destruct (Str.is_empty s).
  { intros [= <- <-]. split; [by left|constructor]. }
  destruct (PosixPath.splitroot s) as [r rel] eqn:Hr. intros [= <- <-].
  split; [|apply filter_keep_good, split_parts_free].
  unfold PosixPath.splitroot in Hr.
  destruct s as [|c1 [|c2 s]]; simpl in Hr;
    repeat case_bool_decide; simplify_eq/=; auto.
Qed.

Lemma parse_path_render root tail :
  root = "" ∨ root = "/" ∨ root = "//" →
  Forall (λ x, good_part x = true) tail →
  Str.is_empty (root +:+ Str.join "/" tail) = false →
  PosixPath.parse_path (root +:+ Str.join "/" tail) = (root, tail).
Proof.
  intros Hroot Htail Hne.
  destruct tail as [|x tl].
  { destruct Hroot as [->|[->| ->]]; done. }
  pose proof (split_join (x :: tl) Htail ltac:(done)) as Hsplit.
  pose proof (filter_good_id _ Htail) as Hfilter.
  assert (∃ c r, Str.join "/" (x :: tl) = String c r ∧ c ≠ "/"%char)
    as (c & r & Hj & Hc).
  { apply Forall_cons in Htail as [Hx _].
    apply andb_true_iff in Hx as [Hfree Hkeep].
    destruct x as [|c x]; [done|]. simpl in Hfree.
    apply andb_true_iff in Hfree as [Hc _]. apply negb_true_iff in Hc.
    unfold Str.is_char in Hc. apply bool_decide_eq_false in Hc.
    destruct tl; simpl; eauto. }
  rewrite Hj in *. unfold PosixPath.parse_path, PosixPath.splitroot.
  simpl in Hsplit.
  destruct Hroot as [->|[->| ->]]; simpl;
    rewrite ?(bool_decide_eq_false_2 (String c "" = "/")) by congruence;
    simpl; by rewrite Hsplit, Hfilter.
Qed.

Lemma path_str_idem s : path_str (path_str s) = path_str s.
Proof.
  destruct (PosixPath.parse_path s) as [root tail] eqn:Hp.
  assert (path_str s = if Str.is_empty (root +:+ Str.join "/" tail)
                       then "." else root +:+ Str.join "/" tail) as ->.
  { unfold path_str. by rewrite Hp. }
  apply parse_path_shape in Hp as [Hroot Htail].
  destruct (Str.is_empty (root +:+ Str.join "/" tail)) eqn:He; [done|].
  unfold path_str. by rewrite parse_path_render, He.
Qed.

End path_str_facts.

(** ** The arguments of a comparison *)

Section cli_facts.

Lemma rev_app_append s t acc :
  String.rev_app (s +:+ t) acc = String.rev_app t (String.rev_app s acc).
Proof.
  revert acc. induction s as [|c s IH]; intros acc; [done|].
  rewrite append_cons. simpl. apply IH.
Qed.

Lemma endswith_snoc s : Str.endswith "/" (s +:+ "/") = true.
Proof.
  unfold Str.endswith, String.rev. by rewrite rev_app_append.
Qed.

Lemma normalize_destination_ends s :
  Str.endswith "/" (Cli.normalize_destination s) = true.
Proof.
  unfold Cli.normalize_destination.
  destruct (Str.endswith "/" s) eqn:He; simpl; [done|apply endswith_snoc].
Qed.

Lemma normalize_source_ends s :
  Str.endswith "/" (Cli.normalize_source s) = true
  ∨ Str.contains "@" (Cli.normalize_source s) = true.
Proof.
  unfold Cli.normalize_source.
  destruct (Str.endswith "/" s) eqn:He; simpl; [by left|].
  destruct (Str.contains "@" s) eqn:Hc; simpl; [by right|].
  left. apply endswith_snoc.
Qed.

End cli_facts.

(** X11: whenever [main] reaches the comparison, the destination handed
    to rsync ends with the separator and the source handed to rsync ends
    with the separator or contains ["@"]; each is the argument itself or
    the argument followed by one separator, and normalising again changes
    nothing. The labels of the report are the arguments as given. *)
Theorem comparison_arguments
    (default_output : string) (a : Cli.args) (cfg cfg' : config_file)
    (rs rd ls ld out : string) (q : bool) :
  Cli.main default_output a cfg = (Cli.Compare rs rd ls ld out q, cfg') →
  Cli.source a = Some ls ∧ Cli.destination a = Some ld
  ∧ Str.endswith "/" rd = true
  ∧ (rd = ld ∨ rd = ld +:+ "/")
  ∧ (Str.endswith "/" rs = true ∨ Str.contains "@" rs = true)
  ∧ (rs = ls ∨ rs = ls +:+ "/")
  ∧ Cli.normalize_destination rd = rd
  ∧ Cli.normalize_source rs = rs
  ∧ q = Cli.quiet a.
Proof.
  unfold Cli.main. destruct (_ && Cli.no_compare a); [done|].
  destruct (negb (Cli.no_compare a) && _); [done|].
  destruct (Cli.source a) as [src|]; [|done].
  destruct (Cli.destination a) as [dst|]; [|done].
  intros [= <- <- <- <- _ <- _].
  pose proof (normalize_destination_ends dst) as Hd.
  pose proof (normalize_source_ends src) as Hs.
  split_and!; try done.
  - unfold Cli.normalize_destination. destruct (negb _); auto.
  - unfold Cli.normalize_source. destruct (_ && _); auto.
  - unfold Cli.normalize_destination at 1. by rewrite Hd.
  - unfold Cli.normalize_source at 1.
    destruct Hs as [-> | ->]; [done|]. by rewrite andb_false_r.
Qed.

Lemma comparison_arguments_witness :
  Cli.source (Cli.mkArgs (Some "/mnt/local") (Some "owner@nas:/mnt/nas")
                None None false true) = Some "/mnt/local"
  ∧ Cli.destination (Cli.mkArgs (Some "/mnt/local") (Some "owner@nas:/mnt/nas")
                       None None false true) = Some "owner@nas:/mnt/nas"
  ∧ Str.endswith "/" "owner@nas:/mnt/nas/" = true
  ∧ ("owner@nas:/mnt/nas/" = "owner@nas:/mnt/nas"
     ∨ "owner@nas:/mnt/nas/" = "owner@nas:/mnt/nas" +:+ "/")
  ∧ (Str.endswith "/" "/mnt/local/" = true
     ∨ Str.contains "@" "/mnt/local/" = true)
  ∧ ("/mnt/local/" = "/mnt/local" ∨ "/mnt/local/" = "/mnt/local" +:+ "/")
  ∧ Cli.normalize_destination "owner@nas:/mnt/nas/" = "owner@nas:/mnt/nas/"
  ∧ Cli.normalize_source "/mnt/local/" = "/mnt/local/"
  ∧ true = Cli.quiet (Cli.mkArgs (Some "/mnt/local") (Some "owner@nas:/mnt/nas")
                        None None false true).
Proof.
  apply (comparison_arguments "/home/u/drive_comparison_report.txt"
           (Cli.mkArgs (Some "/mnt/local") (Some "owner@nas:/mnt/nas")
              None None false true)
           Absent Absent "/mnt/local/" "owner@nas:/mnt/nas/"
           "/mnt/local" "owner@nas:/mnt/nas"
           "/home/u/drive_comparison_report.txt" true).
  reflexivity.
Defined.

(** X12: [--no-compare] skips the comparison only together with
    [--set-default], where the run exits with 0 after saving. Alone it
    skips nothing but the check of the arguments: with both locations given
    the comparison runs, and with one missing the run ends in an
    [AttributeError] outside the handlers. Without [--no-compare], a
    missing or empty location is a usage error with exit status 2, raised
    after a given [--set-default] has been saved. *)
Theorem no_compare_needs_set_default
    (default_output : string) (a : Cli.args) (cfg : config_file) :
  (Cli.no_compare a = true → ∀ p, Cli.set_default a = Some p →
   Cli.main default_output a cfg = (Cli.Exit 0, Content (path_str p)))
  ∧ (Cli.no_compare a = true → Cli.set_default a = None →
     (Cli.main default_output a cfg).2 = cfg
     ∧ match Cli.source a, Cli.destination a with
       | Some src, Some dst =>
           ∃ out, (Cli.main default_output a cfg).1
                  = Cli.Compare (Cli.normalize_source src)
                      (Cli.normalize_destination dst) src dst out (Cli.quiet a)
       | _, _ => (Cli.main default_output a cfg).1 = Cli.AttributeError
       end)
  ∧ (Cli.no_compare a = false →
     Cli.truthy (Cli.source a) && Cli.truthy (Cli.destination a) = false →
     (Cli.main default_output a cfg).1 = Cli.Exit 2
     ∧ (Cli.main default_output a cfg).2
       = match Cli.set_default a with
         | Some p => Content (path_str p)
         | None => cfg
         end).
Proof.
  unfold Cli.main. split_and!.
  - intros -> p ->. by rewrite bool_decide_eq_true_2 by eauto.
  - intros -> ->. rewrite bool_decide_eq_false_2 by (by intros [? ?]). simpl.
    destruct (Cli.source a), (Cli.destination a); simpl; eauto.
  - intros -> Hmiss. rewrite andb_false_r. simpl.
    assert (negb (Cli.truthy (Cli.source a))
            || negb (Cli.truthy (Cli.destination a)) = true) as ->.
    { by destruct (Cli.truthy (Cli.source a)), (Cli.truthy (Cli.destination a)). }
    by destruct (Cli.set_default a).
Qed.

Lemma no_compare_needs_set_default_witness :
  (Cli.main "/home/u/r.txt"
     (Cli.mkArgs None None None None true false) (Content "old")).2
  = Content "old"
  ∧ (Cli.main "/home/u/r.txt"
       (Cli.mkArgs None None None None true false) (Content "old")).1
    = Cli.AttributeError.
Proof.
  apply (proj1 (proj2 (no_compare_needs_set_default "/home/u/r.txt"
                         (Cli.mkArgs None None None None true false)
                         (Content "old")))); reflexivity.
Defined.

(** ** The command *)

(** X14: the command of the comparison always runs rsync in dry-run mode
    ([-avn]) on exactly the source and the destination given; the only
    thing that may come before it is the [sshpass] prefix, present exactly
    when the destination contains ["@"] and [sshpass] was found. The test
    for a destination beginning with ["owner@"] adds nothing to the test
    for ["@"]. *)
Theorem rsync_always_dry_run (source destination : string) (found : bool) :
  ∃ pre,
    rsync_cmd source destination found
    = pre ++ ["rsync"; "-avn"; "--progress"; source; destination]
    ∧ (pre = [] ∨ pre = ["sshpass"; "-p"; "2312"])
    ∧ (pre ≠ [] ↔ has_substring "@" destination ∧ found = true).
Proof.
  unfold rsync_cmd.
  assert (Str.startswith "owner@" destination || Str.contains "@" destination
          = Str.contains "@" destination) as ->.
  { destruct (Str.startswith "owner@" destination) eqn:Hs; [|done].
    apply startswith_begins in Hs as [t Ht]. simpl. symmetry.
    apply contains_has_substring. by exists "owner", t. }
  destruct (Str.contains "@" destination) eqn:Hc, found; simpl.
  - exists ["sshpass"; "-p"; "2312"]. split_and!; [done|by right|].
    split; [|done]. intros _. split; [by apply contains_has_substring|done].
  - exists []. split_and!; [done|by left|]. split; [done|by intros [_ ?]].
  - exists []. split_and!; [done|by left|]. split; [done|].
    intros [Hsub%contains_has_substring _]. congruence.
  - exists []. split_and!; [done|by left|]. split; [done|by intros [_ ?]].
Qed.


(** ** Samples that are stored but not shown *)

Section shown.

Implicit Types (d : dict) (k : string).

Lemma shown_only_keys d : (shown_only d).*1 = d.*1.
Proof.
  unfold shown_only. rewrite <-list_fmap_compose.
  by apply list_fmap_ext.
Qed.

Lemma dict_get_shown_only k d :
  dict_get k (shown_only d)
  = (λ st, mkStat (files st) (dirs st) (take 3 (items st))) <$> dict_get k d.
Proof.
  induction d as [|[k0 st] d IH]; [done|]. simpl.
  by destruct (decide (k0 = k)).
Qed.

Lemma section_lines_shown_only d k :
  section_lines (shown_only d) k = section_lines d k.
Proof.
  unfold section_lines. rewrite dict_get_shown_only.
  destruct (dict_get k d) as [st|]; simpl; [|done].
  rewrite take_take. f_equal. f_equal.
  by destruct (items st).
Qed.

Lemma summary_lines_shown_only d : summary_lines (shown_only d) = summary_lines d.
Proof.
  unfold summary_lines, total_files, total_dirs, shown_only.
  rewrite length_fmap, <-!list_fmap_compose. done.
Qed.

End shown.

(** X15: the report shows the first three samples of a key and nothing of
    the others. Cutting every sample list of a result to its first three
    entries leaves the whole report text as it is, so the fourth and fifth
    samples that the parser stores never reach the report. *)
Theorem later_samples_never_shown (d : dict) (source destination : string) :
  format_report (shown_only d) source destination
  = format_report d source destination.
Proof.
  unfold format_report, report_lines, sorted_keys.
  rewrite shown_only_keys, summary_lines_shown_only.
  do 4 f_equal. apply list_fmap_ext. intros _ k _.
  apply section_lines_shown_only.
Qed.

(** ** Every accepted line is grouped *)

Section grouped.

Implicit Types (d : dict) (k raw : string) (ls : list string).

Lemma classify_keyed k raw : snd <$> classify raw = Some k ↔ keyed k raw.
Proof.
  unfold classify, keyed. destruct (is_noise (Str.strip raw)); simpl.
  - split; [done|by intros [? _]].
  - destruct (key_of_parts (segments (Str.strip raw))) as [k0|]; simpl.
    + split; [by intros [= ->]|by intros [_ [= ->]]].
    + split; [done|by intros [_ ?]].
Qed.

Lemma routed_keyed_length k ls :
  length (routed k ls) = length (filter (keyed k) ls).
Proof.
  unfold routed. rewrite length_fmap. induction ls as [|raw ls IH]; [done|].
  cbn [List.filter]. rewrite filter_cons.
  destruct (decide (keyed k raw)) as [Hk|Hk].
  - rewrite bool_decide_eq_true_2 by (by apply classify_keyed).
    simpl. by rewrite IH.
  - rewrite bool_decide_eq_false_2 by (by rewrite classify_keyed).
    done.
Qed.

Lemma routed_nonempty_iff k ls :
  routed k ls ≠ [] ↔ ∃ raw, raw ∈ ls ∧ keyed k raw.
Proof.
  rewrite <-length_zero_iff_nil, routed_keyed_length, length_zero_iff_nil.
  split.
  - intros Hne. destruct (filter (keyed k) ls) as [|raw l] eqn:Hf; [done|].
    assert (raw ∈ filter (keyed k) ls) as Hin by (rewrite Hf; left).
    apply list_elem_of_filter in Hin as [? ?]. eauto.
  - intros (raw & Hin & Hk) Hnil.
    by eapply filter_nil_not_elem_of.
Qed.

Lemma record_line_changes c k line d : record_line c k line d ≠ d.
Proof.
  intros Heq. pose proof (total_files_record c k line d) as Hf.
  pose proof (total_dirs_record c k line d) as Hd.
  rewrite Heq in Hf, Hd. destruct c; lia.
Qed.

End grouped.

(** C9: the parser returns a result on every text, and from every state on
    every list of lines, without raising. Its result never has the empty
    string as key and never the same key twice; a string is a key of it
    exactly when some line of the text passes the noise filter and has that
    key, and the counters of every key sum to the number of such lines, so
    each of them is counted once under its key and no other line creates a
    DirectoryStat. The line ["/"], and any line whose path has no segment,
    leaves the result as it is. Every other line that passes the noise
    filter is counted once, in the counter of its class, under the
    non-empty key made of its first segments, which is then a key of the
    result. *)
Theorem parser_total_no_empty_key :
  (∀ text, ∃ d,
     analyze_rsync_output text = Ok d
     ∧ ("" ∉ d.*1) ∧ NoDup (d.*1)
     ∧ (∀ k, k ∈ d.*1 ↔ ∃ raw, raw ∈ Str.readlines text ∧ keyed k raw)
     ∧ (∀ k, files (stat_of k d) + dirs (stat_of k d)
             = length (filter (keyed k) (Str.readlines text))))
  ∧ (∀ d ls, ∃ d', analyze_lines d ls = Ok d')
  ∧ (∀ d, process_line d "/" = Ok d)
  ∧ (∀ d raw, segments (Str.strip raw) = [] → process_line d raw = Ok d)
  ∧ (∀ d raw,
       is_noise (Str.strip raw) = false →
       segments (Str.strip raw) ≠ [] →
       ∃ k d', key_of_parts (segments (Str.strip raw)) = Some k
               ∧ k ≠ ""
               ∧ process_line d raw = Ok d'
               ∧ k ∈ d'.*1
               ∧ counted_under (Str.endswith "/" (Str.strip raw)) k d d'
               ∧ total_files d' + total_dirs d'
                 = S (total_files d + total_dirs d)).
Proof.
  split_and!.
  - intros text. unfold analyze_rsync_output. rewrite analyze_lines_fold.
    eexists. split_and!; [done| | | |].
    + apply no_empty_key_fold. by intros ?%elem_of_nil.
    + apply NoDup_keys_fold. constructor.
    + intros k. rewrite keys_fold_iff, routed_nonempty_iff.
      split; [intros [?%elem_of_nil|?]; done|by right].
    + intros k. destruct (counts_fold (Str.readlines text) [] k) as [-> ->].
      rewrite <-routed_keyed_length, routed_length. simpl. lia.
  - intros d ls. rewrite analyze_lines_fold. by eexists.
  - intros d. rewrite process_line_step. by rewrite step_discarded.
  - intros d raw Hseg. rewrite process_line_step. rewrite step_discarded; [done|].
    rewrite classify_segments, Hseg. by destruct (is_noise _).
  - intros d raw Hnoise Hseg. rewrite process_line_step.
    unfold step, classify. rewrite Hnoise.
    destruct (key_of_parts (segments (Str.strip raw))) as [k|] eqn:Hk.
    + exists k. eexists. simpl. split_and!; [done| |done| | |].
      * eapply key_of_parts_nonempty; [|done]. intros x. apply parts_nonempty.
      * apply elem_of_keys_record. by left.
      * apply record_line_counted.
      * rewrite total_files_record, total_dirs_record.
        destruct (Str.endswith _ _); lia.
    + by destruct (segments (Str.strip raw)) as [|p0 [|p1 ps]].
Qed.

Lemma parser_total_no_empty_key_witness :
  ∃ k d', key_of_parts (segments (Str.strip "?? ::weird//./line ")) = Some k
          ∧ k ≠ ""
          ∧ process_line [("a", mkStat 1 0 ["a"])] "?? ::weird//./line " = Ok d'
          ∧ k ∈ d'.*1
          ∧ counted_under (Str.endswith "/" (Str.strip "?? ::weird//./line "))
              k [("a", mkStat 1 0 ["a"])] d'
          ∧ total_files d' + total_dirs d'
            = S (total_files [("a", mkStat 1 0 ["a"])]
                 + total_dirs [("a", mkStat 1 0 ["a"])]).
Proof.
  apply (proj2 (proj2 (proj2 (proj2 parser_total_no_empty_key)))
           [("a", mkStat 1 0 ["a"])] "?? ::weird//./line ").
  - reflexivity.
  - vm_compute. discriminate.
Defined.

(** X5: the parser leaves its state as it is on a line for exactly three
    reasons: the line is empty after trimming, or it then begins with one
    of the six status prefixes or contains ["bytes/sec"], or its path has no
    segment. On every other line the state changes: the line is counted
    once under the key of its segments, as a directory when its trimmed
    text ends with the separator and as a file otherwise. *)
Theorem dropped_for_three_reasons (d : dict) (raw : string) :
  (process_line d raw = Ok d
   ↔ Str.strip raw = "" ∨ noise_shaped (Str.strip raw)
     ∨ segments (Str.strip raw) = [])
  ∧ (process_line d raw ≠ Ok d →
     ∃ k d', key_of_parts (segments (Str.strip raw)) = Some k
             ∧ process_line d raw = Ok d'
             ∧ counted_under (Str.endswith "/" (Str.strip raw)) k d d'
             ∧ total_files d' + total_dirs d'
               = S (total_files d + total_dirs d)).
Proof.
  rewrite process_line_step. unfold step. rewrite classify_segments.
  destruct (is_noise (Str.strip raw)) eqn:Hn.
  { apply is_noise_shape in Hn. split; [split; [tauto|done]|done]. }
  assert (¬ (Str.strip raw = "" ∨ noise_shaped (Str.strip raw))) as Hno.
  { rewrite <-is_noise_shape. congruence. }
  destruct (segments (Str.strip raw)) as [|p0 [|p1 ps]] eqn:Hseg.
  - split; [split; auto|done].
  - split.
    + split; [intros [= Heq]; by apply record_line_changes in Heq|].
      intros [?|[?|?]]; [tauto..|done].
    + intros _. eexists _, _. split_and!; [done..|apply record_line_counted|].
      rewrite total_files_record, total_dirs_record.
      destruct (Str.endswith _ _); lia.
  - split.
    + split; [intros [= Heq]; by apply record_line_changes in Heq|].
      intros [?|[?|?]]; [tauto..|done].
    + intros _. eexists _, _. split_and!; [done..|apply record_line_counted|].
      rewrite total_files_record, total_dirs_record.
      destruct (Str.endswith _ _); lia.
Qed.

Lemma dropped_for_three_reasons_witness :
  ∃ k d', key_of_parts (segments (Str.strip " var/log/ ")) = Some k
          ∧ process_line [("var", mkStat 2 0 [])] " var/log/ " = Ok d'
          ∧ counted_under (Str.endswith "/" (Str.strip " var/log/ ")) k
              [("var", mkStat 2 0 [])] d'
          ∧ total_files d' + total_dirs d'
            = S (total_files [("var", mkStat 2 0 [])]
                 + total_dirs [("var", mkStat 2 0 [])]).
Proof.
  apply (proj2 (dropped_for_three_reasons [("var", mkStat 2 0 [])] " var/log/ ")).
  vm_compute. discriminate.
Defined.

(** ** The default output across runs *)

Section newline_facts.

Lemma translate_newlines_no_CR s : no_CR s = true → translate_newlines s = s.
Proof.
  unfold no_CR. induction s as [|c s IH]; [done|]. simpl.
  intros [Hc Hs]%andb_true_iff. apply negb_true_iff in Hc.
  by rewrite Hc, IH.
Qed.

End newline_facts.

(** X13: the default output survives the configuration file. After
    [--set-default p] a later run without [-o] writes its report to the
    path read back from the file, which is [p] as a path whenever the
    string of [p] holds no carriage return and has no whitespace at its
    ends; in general it is the path of that string with its line ends read
    as ["\n"] and then trimmed. With the file absent or unreadable the run
    falls back to the built-in default, and [-o] always wins. *)
Theorem default_output_round_trip
    (default_output p : string) (cfg : config_file) :
  load_default_output default_output (save_default_output (path_str p) cfg)
  = path_str (Str.strip (translate_newlines (path_str p)))
  ∧ (no_CR (path_str p) = true →
     Str.strip (path_str p) = path_str p →
     load_default_output default_output (save_default_output (path_str p) cfg)
     = path_str p
     ∧ ∀ a1 a2 rs rd ls ld out q cfg2,
         Cli.set_default a1 = Some p →
         Cli.set_default a2 = None →
         Cli.output a2 = None →
         Cli.main default_output a2 (Cli.main default_output a1 cfg).2
         = (Cli.Compare rs rd ls ld out q, cfg2) →
         out = path_str p)
  ∧ load_default_output default_output Absent = default_output
  ∧ load_default_output default_output Unreadable = default_output
  ∧ (∀ a o rs rd ls ld out q cfg2,
       Cli.output a = Some o →
       Cli.main default_output a cfg = (Cli.Compare rs rd ls ld out q, cfg2) →
       out = path_str o).
Proof.
  split_and!; try done.
  - intros Hcr Hclean. split.
    + simpl. by rewrite translate_newlines_no_CR, Hclean, path_str_idem.
    + intros a1 a2 rs rd ls ld out q cfg2 H1 H2 Ho.
      assert ((Cli.main default_output a1 cfg).2 = Content (path_str p)) as ->.
      { unfold Cli.main. rewrite H1.
        repeat (destruct (_ && _); simpl; try done).
        by destruct (Cli.source a1), (Cli.destination a1). }
      unfold Cli.main. rewrite H2, Ho. simpl.
      destruct (negb (Cli.no_compare a2) && _); [done|].
      destruct (Cli.source a2), (Cli.destination a2); try done.
      intros [= _ _ _ _ <- _ _].
      by rewrite translate_newlines_no_CR, Hclean, path_str_idem.
  - intros a o rs rd ls ld out q cfg2 Ho. unfold Cli.main. rewrite Ho.
    repeat (destruct (_ && _); simpl; try done).
    destruct (Cli.source a), (Cli.destination a); try done.
    by intros [= _ _ _ _ <- _ _].
Qed.

Lemma default_output_round_trip_witness :
  load_default_output "/home/u/r.txt"
    (save_default_output (path_str "reports//2024/") Absent)
  = path_str "reports//2024/"
  ∧ ∀ a1 a2 rs rd ls ld out q cfg2,
      Cli.set_default a1 = Some "reports//2024/" →
      Cli.set_default a2 = None →
      Cli.output a2 = None →
      Cli.main "/home/u/r.txt" a2 (Cli.main "/home/u/r.txt" a1 Absent).2
      = (Cli.Compare rs rd ls ld out q, cfg2) →
      out = path_str "reports//2024/".
Proof.
  apply (proj1 (proj2 (default_output_round_trip "/home/u/r.txt"
                         "reports//2024/" Absent))); reflexivity.
Defined.
